(** * Dual-gate airlock interlock controller

    A shallow embedding of the two Arduino sketches of the repository:

    - [Sketch]      : [src/unnamed/part_000], the level-sensing variant, which
                      reads the digital lines directly;
    - [Simulation]  : [src/Subtask_1/Simulation/simulation.ino], the variant
                      that keeps one toggled boolean per input line, flipped
                      on every falling edge.

    Both sketches share the pin numbering, the [AirlockState] enumeration and
    the NeoPixel status strip.  A control cycle is one call of [loop]. *)

From Stdlib Require Import ZArith Bool String Ascii.
From stdpp Require Import base option list gmap.

Local Open Scope Z_scope.

(** ** Arduino core: levels, pins, pin modes *)

(** [HIGH] is [0x1] and [LOW] is [0x0]; the sketches store them in [bool]. *)
Definition HIGH : bool := true.
Definition LOW : bool := false.

Definition PRESENCE_FRONT : Z := 12.
Definition PRESENCE_MIDDLE : Z := 14.
Definition PRESENCE_BACK : Z := 27.
Definition GATE_SAFETY_A : Z := 26.
Definition GATE_SAFETY_B : Z := 25.
Definition GATE_REQUEST_A : Z := 33.
Definition GATE_REQUEST_B : Z := 32.
Definition GATE_MOVING_A : Z := 35.
Definition GATE_MOVING_B : Z := 34.
Definition LED_DATA : Z := 13.

Inductive PinMode : Type := INPUT | OUTPUT | INPUT_PULLUP.

(** The levels present on the digital lines during one control cycle.
    [digitalRead] samples them; they are held fixed for the duration of a
    cycle, which is the immutable per-cycle snapshot of the design. *)
Definition Lines : Type := Z -> bool.

Definition digitalRead (io : Lines) (pin : Z) : bool := io pin.

(** ** The state machine enumeration *)

Inductive AirlockState : Type :=
  | ST_IDLE
  | ST_FRONT_ENTER
  | ST_MIDDLE_OCCUPIED
  | ST_BACK_EXIT
  | ST_BACK_ENTER
  | ST_FRONT_EXIT
  | ST_SAFETY_LOCK.

#[global] Instance AirlockState_eq_dec : EqDecision AirlockState.
Proof. solve_decision. Defined.

(** ** The NeoPixel strip

    [Adafruit_NeoPixel] keeps a pixel buffer that [setPixelColor] fills and
    that [show] latches onto the LEDs.  [Color] packs the three channels into
    one 32-bit word. *)

Record NeoPixel : Type := mkNeoPixel {
  pixels : list Z;
  shown : list Z
}.

Definition Color (r g b : Z) : Z :=
  Z.lor (Z.lor (Z.shiftl r 16) (Z.shiftl g 8)) b.

Definition numPixels (s : NeoPixel) : nat := length (pixels s).

Definition setPixelColor (i : nat) (c : Z) (s : NeoPixel) : NeoPixel :=
  mkNeoPixel (<[i := c]> (pixels s)) (shown s).

Definition show (s : NeoPixel) : NeoPixel :=
  mkNeoPixel (pixels s) (pixels s).

(** [Adafruit_NeoPixel ledStrip(8, LED_DATA, NEO_GRB + NEO_KHZ800)] *)
Definition ledStrip_init : NeoPixel :=
  mkNeoPixel (replicate 8 0) (replicate 8 0).

(** The body of [updateLEDs]: [for(int i=0; i<numPixels(); i++)
    setPixelColor(i, color)], with [n] the iterations still to run. *)
Fixpoint fillPixels (n : nat) (i : nat) (color : Z) (s : NeoPixel) : NeoPixel :=
  match n with
  | O => s
  | S n' => fillPixels n' (S i) color (setPixelColor i color s)
  end.

Definition paint (color : Z) (s : NeoPixel) : NeoPixel :=
  show (fillPixels (numPixels s) 0 color s).

Definition RED : Z := Eval cbv in Color 255 0 0.
Definition GREEN : Z := Eval cbv in Color 0 255 0.
Definition BLUE : Z := Eval cbv in Color 0 0 255.
Definition ORANGE : Z := Eval cbv in Color 255 165 0.
Definition PURPLE : Z := Eval cbv in Color 128 0 128.
Definition YELLOW : Z := Eval cbv in Color 255 255 0.

(** ** Commands: the sketches are sequences of statements over globals *)

Definition Cmd (S A : Type) : Type := S -> A * S.

Definition ret {S A : Type} (a : A) : Cmd S A := fun s => (a, s).

Definition bind {S A B : Type} (c : Cmd S A) (k : A -> Cmd S B) : Cmd S B :=
  fun s => let (a, s') := c s in k a s'.

Definition exec {S A : Type} (c : Cmd S A) (s : S) : S := snd (c s).
Definition result {S A : Type} (c : Cmd S A) (s : S) : A := fst (c s).

Notation "c1 >> c2" := (bind c1 (fun _ => c2))
  (at level 90, right associativity).

(** The logical sensor values of one cycle, in the vocabulary of the design:
    a zone flag is [true] when the zone is occupied, a safety flag is [true]
    when the gate path is obstructed, a moving flag is [true] while the gate
    is in transit. *)
Record SensorSnapshot : Type := mkSnapshot {
  front : bool;
  middle : bool;
  back : bool;
  safetyA : bool;
  safetyB : bool;
  movingA : bool;
  movingB : bool
}.

(** ** The level-sensing sketch ([src/unnamed/part_000]) *)

Module Sketch.

Record Machine : Type := mkMachine {
  modes : gmap Z PinMode;
  outputs : gmap Z bool;
  currentState : AirlockState;
  ledStrip : NeoPixel
}.

Definition pinMode (pin : Z) (mode : PinMode) : Cmd Machine unit :=
  fun m => (tt, mkMachine (<[pin := mode]> (modes m)) (outputs m)
                          (currentState m) (ledStrip m)).

Definition digitalWrite (pin : Z) (val : bool) : Cmd Machine unit :=
  fun m => (tt, mkMachine (modes m) (<[pin := val]> (outputs m))
                          (currentState m) (ledStrip m)).

Definition setState (st : AirlockState) : Cmd Machine unit :=
  fun m => (tt, mkMachine (modes m) (outputs m) st (ledStrip m)).

Definition getState : Cmd Machine AirlockState :=
  fun m => (currentState m, m).

(** Safety wrapper for gate operations. *)
Definition operateGate (io : Lines) (gate : Z) (open : bool)
  : Cmd Machine unit :=
  if gate =? 0 then
    if eqb (digitalRead io GATE_SAFETY_A) LOW then ret tt
    else digitalWrite GATE_REQUEST_A open
  else
    if eqb (digitalRead io GATE_SAFETY_B) LOW then ret tt
    else digitalWrite GATE_REQUEST_B open.

Definition updateLEDs (color : Z) : Cmd Machine unit :=
  fun m => (tt, mkMachine (modes m) (outputs m) (currentState m)
                          (paint color (ledStrip m))).

(** [ledStrip.begin()]: the driver takes the data pin as an output and
    pulls it low; the pixel buffer is untouched. *)
Definition ledStrip_begin : Cmd Machine unit :=
  pinMode LED_DATA OUTPUT >>
  digitalWrite LED_DATA LOW.

(** Globals as initialised before [setup] runs. *)
Definition power_on : Machine :=
  mkMachine ∅ ∅ ST_IDLE ledStrip_init.

Definition setup : Cmd Machine unit :=
  pinMode PRESENCE_FRONT INPUT >>
  pinMode PRESENCE_MIDDLE INPUT >>
  pinMode PRESENCE_BACK INPUT >>
  pinMode GATE_SAFETY_A INPUT >>
  pinMode GATE_SAFETY_B INPUT >>
  pinMode GATE_REQUEST_A OUTPUT >>
  pinMode GATE_REQUEST_B OUTPUT >>
  digitalWrite GATE_REQUEST_A LOW >>
  digitalWrite GATE_REQUEST_B LOW >>
  ledStrip_begin >>
  updateLEDs (Color 0 255 0).

(** The [switch(currentState)] of [loop], reached when no safety sensor
    reports an obstruction. *)
Definition sequence (io : Lines) (front middle back : bool)
  : Cmd Machine unit :=
  bind getState (fun st =>
  match st with
  | ST_IDLE =>
      if front && negb middle && negb back then
        operateGate io 0 true >>
        setState ST_FRONT_ENTER >>
        updateLEDs (Color 0 0 255)
      else if back && negb middle && negb front then
        operateGate io 1 true >>
        setState ST_BACK_ENTER >>
        updateLEDs (Color 255 165 0)
      else if front && back then
        operateGate io 0 true >>
        setState ST_FRONT_ENTER >>
        updateLEDs (Color 128 0 128)
      else ret tt
  | ST_FRONT_ENTER =>
      if eqb (digitalRead io GATE_MOVING_A) LOW then
        if middle then
          operateGate io 0 false >>
          setState ST_MIDDLE_OCCUPIED >>
          updateLEDs (Color 255 255 0)
        else ret tt
      else ret tt
  | ST_MIDDLE_OCCUPIED =>
      if eqb (digitalRead io GATE_MOVING_A) HIGH then
        operateGate io 1 true >>
        setState ST_BACK_EXIT >>
        updateLEDs (Color 128 0 128)
      else ret tt
  | ST_BACK_EXIT =>
      if eqb (digitalRead io GATE_MOVING_B) LOW then
        if negb back then
          operateGate io 1 false >>
          setState ST_IDLE >>
          updateLEDs (Color 0 255 0)
        else ret tt
      else ret tt
  | ST_SAFETY_LOCK =>
      if eqb (digitalRead io GATE_SAFETY_A) HIGH
         && eqb (digitalRead io GATE_SAFETY_B) HIGH then
        setState ST_IDLE >>
        updateLEDs (Color 0 255 0)
      else ret tt
  | ST_BACK_ENTER | ST_FRONT_EXIT => ret tt
  end).

(** One control cycle.  The trailing [delay(100)] changes no state. *)
Definition loop (io : Lines) : Cmd Machine unit :=
  let front := eqb (digitalRead io PRESENCE_FRONT) LOW in
  let middle := eqb (digitalRead io PRESENCE_MIDDLE) LOW in
  let back := eqb (digitalRead io PRESENCE_BACK) LOW in
  if eqb (digitalRead io GATE_SAFETY_A) LOW
     || eqb (digitalRead io GATE_SAFETY_B) LOW then
    operateGate io 0 false >>
    operateGate io 1 false >>
    (if middle then setState ST_MIDDLE_OCCUPIED
     else if eqb (digitalRead io GATE_SAFETY_A) LOW
             || eqb (digitalRead io GATE_SAFETY_B) LOW
          then setState ST_SAFETY_LOCK
          else setState ST_IDLE) >>
    updateLEDs (Color 255 0 0)
  else
    sequence io front middle back.

(** The snapshot a cycle sees: presence and safety lines are active low,
    the motion lines are active high. *)
Definition sample (io : Lines) : SensorSnapshot :=
  mkSnapshot (eqb (digitalRead io PRESENCE_FRONT) LOW)
             (eqb (digitalRead io PRESENCE_MIDDLE) LOW)
             (eqb (digitalRead io PRESENCE_BACK) LOW)
             (eqb (digitalRead io GATE_SAFETY_A) LOW)
             (eqb (digitalRead io GATE_SAFETY_B) LOW)
             (eqb (digitalRead io GATE_MOVING_A) HIGH)
             (eqb (digitalRead io GATE_MOVING_B) HIGH).

(** Line levels that present a given snapshot to the sketch. *)
Definition lines (s : SensorSnapshot) : Lines :=
  fun pin =>
    if pin =? PRESENCE_FRONT then negb (front s)
    else if pin =? PRESENCE_MIDDLE then negb (middle s)
    else if pin =? PRESENCE_BACK then negb (back s)
    else if pin =? GATE_SAFETY_A then negb (safetyA s)
    else if pin =? GATE_SAFETY_B then negb (safetyB s)
    else if pin =? GATE_MOVING_A then movingA s
    else if pin =? GATE_MOVING_B then movingB s
    else LOW.

(** Successive control cycles. *)
Fixpoint run (ios : list Lines) (m : Machine) : Machine :=
  match ios with
  | [] => m
  | io :: rest => run rest (exec (loop io) m)
  end.

Inductive reachable : Machine -> Prop :=
  | reach_setup : reachable (exec setup power_on)
  | reach_loop io m : reachable m -> reachable (exec (loop io) m).

Definition requestA (m : Machine) : option bool := outputs m !! GATE_REQUEST_A.
Definition requestB (m : Machine) : option bool := outputs m !! GATE_REQUEST_B.

(** Both gate outputs are held at the open level. *)
Definition bothOpen (m : Machine) : Prop :=
  requestA m = Some HIGH /\ requestB m = Some HIGH.

(** The colours currently latched on the pixels of the strip. *)
Definition indicator (m : Machine) : list Z := shown (ledStrip m).

End Sketch.

(** ** The edge-toggled sketch ([src/Subtask_1/Simulation/simulation.ino]) *)

Module Simulation.

Record Machine : Type := mkMachine {
  modes : gmap Z PinMode;
  outputs : gmap Z bool;
  currentState : AirlockState;
  ledStrip : NeoPixel;
  lastb : list bool;
  b : list bool;
  serial : string
}.

(** [a[i]] for the two seven-element global arrays; every index the sketch
    uses is a constant below seven. *)
Definition elem (a : list bool) (i : nat) : bool := default LOW (a !! i).

Definition pinMode (pin : Z) (mode : PinMode) : Cmd Machine unit :=
  fun m => (tt, mkMachine (<[pin := mode]> (modes m)) (outputs m)
                          (currentState m) (ledStrip m)
                          (lastb m) (b m) (serial m)).

Definition digitalWrite (pin : Z) (val : bool) : Cmd Machine unit :=
  fun m => (tt, mkMachine (modes m) (<[pin := val]> (outputs m))
                          (currentState m) (ledStrip m)
                          (lastb m) (b m) (serial m)).

Definition setState (st : AirlockState) : Cmd Machine unit :=
  fun m => (tt, mkMachine (modes m) (outputs m) st (ledStrip m)
                          (lastb m) (b m) (serial m)).

Definition getState : Cmd Machine AirlockState :=
  fun m => (currentState m, m).

Definition set_lastb (i : nat) (v : bool) : Cmd Machine unit :=
  fun m => (tt, mkMachine (modes m) (outputs m) (currentState m) (ledStrip m)
                          (<[i := v]> (lastb m)) (b m) (serial m)).

Definition set_b (i : nat) (v : bool) : Cmd Machine unit :=
  fun m => (tt, mkMachine (modes m) (outputs m) (currentState m) (ledStrip m)
                          (lastb m) (<[i := v]> (b m)) (serial m)).

Definition Serial_print (s : string) : Cmd Machine unit :=
  fun m => (tt, mkMachine (modes m) (outputs m) (currentState m) (ledStrip m)
                          (lastb m) (b m) (serial m ++ s)).

(** [Serial.print] of a [bool] prints it as an integer. *)
Definition Serial_print_bool (v : bool) : Cmd Machine unit :=
  Serial_print (if v then "1" else "0").

Definition newline : string := String (ascii_of_nat 10) EmptyString.

(** Safety wrapper for gate operations. *)
Definition operateGate (gate : Z) (open : bool) : Cmd Machine unit :=
  fun m =>
    if gate =? 0 then
      if negb (elem (b m) 1) then ret tt m
      else digitalWrite GATE_REQUEST_A open m
    else
      if negb (elem (b m) 3) then ret tt m
      else digitalWrite GATE_REQUEST_B open m.

Definition updateLEDs (color : Z) : Cmd Machine unit :=
  fun m => (tt, mkMachine (modes m) (outputs m) (currentState m)
                          (paint color (ledStrip m))
                          (lastb m) (b m) (serial m)).

(** [ledStrip.begin()]: the driver takes the data pin as an output and
    pulls it low; the pixel buffer is untouched. *)
Definition ledStrip_begin : Cmd Machine unit :=
  pinMode LED_DATA OUTPUT >>
  digitalWrite LED_DATA LOW.

(** [Serial.begin(9600)] opens the port; nothing is printed. *)
Definition Serial_begin (baud : Z) : Cmd Machine unit := ret tt.

(** Globals as initialised before [setup] runs. *)
Definition power_on : Machine :=
  mkMachine ∅ ∅ ST_IDLE ledStrip_init
            (replicate 7 HIGH) (replicate 7 HIGH) EmptyString.

Definition setup : Cmd Machine unit :=
  Serial_begin 9600 >>
  pinMode PRESENCE_FRONT INPUT_PULLUP >>
  pinMode PRESENCE_MIDDLE INPUT_PULLUP >>
  pinMode PRESENCE_BACK INPUT_PULLUP >>
  pinMode GATE_SAFETY_A INPUT_PULLUP >>
  pinMode GATE_SAFETY_B INPUT_PULLUP >>
  pinMode GATE_MOVING_A INPUT_PULLUP >>
  pinMode GATE_MOVING_B INPUT_PULLUP >>
  pinMode GATE_REQUEST_A OUTPUT >>
  pinMode GATE_REQUEST_B OUTPUT >>
  digitalWrite GATE_REQUEST_A LOW >>
  digitalWrite GATE_REQUEST_B LOW >>
  ledStrip_begin >>
  updateLEDs (Color 0 255 0).

(** [bool currentb[7] = {digitalRead(...), ...}] *)
Definition currentb (io : Lines) : list bool :=
  [ digitalRead io PRESENCE_FRONT; digitalRead io GATE_SAFETY_A;
    digitalRead io PRESENCE_MIDDLE; digitalRead io GATE_SAFETY_B;
    digitalRead io PRESENCE_BACK; digitalRead io GATE_MOVING_A;
    digitalRead io GATE_MOVING_B ].

(** One iteration of the edge loop: a falling edge flips [b[i]]. *)
Definition edge (cur : list bool) (i : nat) : Cmd Machine unit :=
  (fun m =>
     if eqb (elem (lastb m) i) HIGH && eqb (elem cur i) LOW
     then set_b i (negb (elem (b m) i)) m
     else ret tt m) >>
  set_lastb i (elem cur i).

(** [for(int i=0; i<7; i++)], with [n] the iterations still to run. *)
Fixpoint edges (n : nat) (i : nat) (cur : list bool) : Cmd Machine unit :=
  match n with
  | O => ret tt
  | S n' => edge cur i >> edges n' (S i) cur
  end.

Definition report (label : string) (i : nat) : Cmd Machine unit :=
  Serial_print label >>
  (fun m => Serial_print_bool (elem (b m) i) m) >>
  Serial_print newline.

(** The diagnostic dump of [loop]; the [delay(1000)] after it changes no
    state. *)
Definition dump : Cmd Machine unit :=
  report "PRESENCE_FRONT: " 0 >>
  report "GATE_SAFETY_A: " 1 >>
  report "PRESENCE_MIDDLE: " 2 >>
  report "GATE_SAFETY_B: " 3 >>
  report "PRESENCE_BACK: " 4 >>
  report "GATE_MOVING_A: " 5 >>
  report "GATE_MOVING_B: " 6 >>
  Serial_print newline.

(** The [switch(currentState)] of [loop]. *)
Definition sequence (front middle back : bool) : Cmd Machine unit :=
  fun m =>
  match currentState m with
  | ST_IDLE =>
      if front && back then
        (operateGate 0 true >>
         setState ST_FRONT_ENTER >>
         updateLEDs (Color 128 0 128)) m
      else if back && negb middle && negb front then
        (operateGate 1 true >>
         setState ST_BACK_ENTER >>
         updateLEDs (Color 255 165 0)) m
      else if front && negb middle && negb back then
        (operateGate 0 true >>
         setState ST_FRONT_ENTER >>
         updateLEDs (Color 0 0 255)) m
      else ret tt m
  | ST_FRONT_ENTER =>
      if negb (elem (b m) 5) then
        if middle then
          (operateGate 0 false >>
           setState ST_MIDDLE_OCCUPIED >>
           updateLEDs (Color 255 255 0)) m
        else ret tt m
      else ret tt m
  | ST_MIDDLE_OCCUPIED =>
      if elem (b m) 5 then
        (operateGate 1 true >>
         setState ST_BACK_EXIT >>
         updateLEDs (Color 128 0 128)) m
      else ret tt m
  | ST_BACK_EXIT =>
      if negb (elem (b m) 6) then
        if back then
          (operateGate 1 false >>
           setState ST_IDLE >>
           updateLEDs (Color 0 255 0)) m
        else ret tt m
      else ret tt m
  | ST_SAFETY_LOCK =>
      if elem (b m) 1 && elem (b m) 3 then
        (setState ST_IDLE >>
         updateLEDs (Color 0 255 0)) m
      else ret tt m
  | ST_BACK_ENTER | ST_FRONT_EXIT => ret tt m
  end.

(** The part of [loop] after the diagnostic dump: the safety check and the
    sequencer, working on the toggled booleans. *)
Definition control : Cmd Machine unit :=
  fun m =>
  let front := negb (elem (b m) 0) in
  let middle := negb (elem (b m) 2) in
  let back := negb (elem (b m) 4) in
  if eqb (elem (b m) 1) false || eqb (elem (b m) 3) false then
    (operateGate 0 false >>
     operateGate 1 false >>
     (fun m' =>
        if negb (elem (b m') 2) then setState ST_MIDDLE_OCCUPIED m'
        else if negb (elem (b m') 1) || negb (elem (b m') 3)
             then setState ST_SAFETY_LOCK m'
             else setState ST_IDLE m') >>
     updateLEDs (Color 255 0 0)) m
  else
    sequence front middle back m.

(** One control cycle.  The trailing [delay(100)] changes no state. *)
Definition loop (io : Lines) : Cmd Machine unit :=
  edges 7 0 (currentb io) >>
  dump >>
  control.

(** The snapshot the control part sees in machine [m]: the presence and
    safety booleans are inverted, the motion booleans are used as they
    are. *)
Definition sample (m : Machine) : SensorSnapshot :=
  mkSnapshot (negb (elem (b m) 0))
             (negb (elem (b m) 2))
             (negb (elem (b m) 4))
             (negb (elem (b m) 1))
             (negb (elem (b m) 3))
             (elem (b m) 5)
             (elem (b m) 6).

(** The machine as the control part of a cycle finds it. *)
Definition sensed (io : Lines) (m : Machine) : Machine :=
  exec (edges 7 0 (currentb io) >> dump) m.

(** Line levels with the seven inputs given in the order of [currentb]. *)
Definition lines (cur : list bool) : Lines :=
  fun pin =>
    if pin =? PRESENCE_FRONT then elem cur 0
    else if pin =? GATE_SAFETY_A then elem cur 1
    else if pin =? PRESENCE_MIDDLE then elem cur 2
    else if pin =? GATE_SAFETY_B then elem cur 3
    else if pin =? PRESENCE_BACK then elem cur 4
    else if pin =? GATE_MOVING_A then elem cur 5
    else if pin =? GATE_MOVING_B then elem cur 6
    else LOW.

(** Successive control cycles. *)
Fixpoint run (ios : list Lines) (m : Machine) : Machine :=
  match ios with
  | [] => m
  | io :: rest => run rest (exec (loop io) m)
  end.

Inductive reachable : Machine -> Prop :=
  | reach_setup : reachable (exec setup power_on)
  | reach_loop io m : reachable m -> reachable (exec (loop io) m).

Definition requestA (m : Machine) : option bool := outputs m !! GATE_REQUEST_A.
Definition requestB (m : Machine) : option bool := outputs m !! GATE_REQUEST_B.

Definition bothOpen (m : Machine) : Prop :=
  requestA m = Some HIGH /\ requestB m = Some HIGH.

Definition indicator (m : Machine) : list Z := shown (ledStrip m).

End Simulation.

(** ** Vocabulary of the statements *)

(** The guard of [operateGate] in the level-sensing sketch: the safety line
    of the addressed gate reads [LOW]. *)
Definition Sketch_blocked (io : Lines) (gate : Z) : bool :=
  if gate =? 0 then eqb (digitalRead io GATE_SAFETY_A) LOW
  else eqb (digitalRead io GATE_SAFETY_B) LOW.

(** The guard of [operateGate] in the edge-toggled sketch. *)
Definition Simulation_blocked (m : Simulation.Machine) (gate : Z) : bool :=
  if gate =? 0 then negb (Simulation.elem (Simulation.b m) 1)
  else negb (Simulation.elem (Simulation.b m) 3).

(** The condition of the safety branch of [loop]. *)
Definition obstructed (s : SensorSnapshot) : bool := safetyA s || safetyB s.

(** The colours set by the sequencer when no safety line is active. *)
Definition nominal_colors : list Z := [BLUE; ORANGE; PURPLE; YELLOW; GREEN].

(** What the Gate Actuator Gateway of the design hands back to its caller. *)
Inductive Outcome : Type := Done | Rejected.

(** The machines after [setup]. *)
Definition Sketch_ready : Sketch.Machine := exec Sketch.setup Sketch.power_on.
Definition Simulation_ready : Simulation.Machine :=
  exec Simulation.setup Simulation.power_on.

(** Snapshots used in the concrete traces; fields are
    front, middle, back, safetyA, safetyB, movingA, movingB. *)
Definition snap_quiet : SensorSnapshot :=
  mkSnapshot false false false false false false false.
Definition snap_front : SensorSnapshot :=
  mkSnapshot true false false false false false false.
Definition snap_back : SensorSnapshot :=
  mkSnapshot false false true false false false false.
Definition snap_front_back : SensorSnapshot :=
  mkSnapshot true false true false false false false.
Definition snap_front_middle : SensorSnapshot :=
  mkSnapshot true true false false false false false.
Definition snap_middle : SensorSnapshot :=
  mkSnapshot false true false false false false false.
Definition snap_middle_movingA : SensorSnapshot :=
  mkSnapshot false true false false false true false.
Definition snap_middle_obstructedA : SensorSnapshot :=
  mkSnapshot false true false true false false false.
Definition snap_obstructedA : SensorSnapshot :=
  mkSnapshot false false false true false false false.
Definition snap_obstructedB : SensorSnapshot :=
  mkSnapshot false false false false true false false.

(** Line levels for the edge-toggled sketch, in the order of [currentb]:
    front, safety A, middle, safety B, back, moving A, moving B.  A boolean
    flips when its line falls from [HIGH] to [LOW]. *)
Definition sim_front_falls : Lines :=
  Simulation.lines [LOW; HIGH; HIGH; HIGH; HIGH; HIGH; HIGH].
Definition sim_safetyA_falls : Lines :=
  Simulation.lines [LOW; LOW; HIGH; HIGH; HIGH; HIGH; HIGH].
Definition sim_safetyA_middle_fall : Lines :=
  Simulation.lines [LOW; LOW; LOW; HIGH; HIGH; HIGH; HIGH].
Definition sim_safetyA_rises : Lines :=
  Simulation.lines [LOW; HIGH; LOW; HIGH; HIGH; HIGH; HIGH].
Definition sim_back_falls : Lines :=
  Simulation.lines [HIGH; HIGH; HIGH; HIGH; LOW; HIGH; HIGH].
Definition sim_front_back_fall : Lines :=
  Simulation.lines [LOW; HIGH; HIGH; HIGH; LOW; HIGH; HIGH].
Definition sim_front_moving_fall : Lines :=
  Simulation.lines [LOW; HIGH; HIGH; HIGH; HIGH; LOW; LOW].
Definition sim_middle_falls : Lines :=
  Simulation.lines [LOW; HIGH; LOW; HIGH; HIGH; LOW; LOW].
Definition sim_back_middle_fall : Lines :=
  Simulation.lines [HIGH; HIGH; LOW; HIGH; LOW; HIGH; LOW].

(** The level-sensing sketch with gate A commanded open: one cycle with only
    the front zone occupied. *)
Definition Sketch_A_open : Sketch.Machine :=
  Sketch.run [Sketch.lines snap_front] Sketch_ready.

(** The same for the edge-toggled sketch, followed by a cycle in which the
    gate-A safety boolean flips to obstructed. *)
Definition Simulation_A_open : Simulation.Machine :=
  Simulation.run [sim_front_falls] Simulation_ready.
Definition Simulation_A_open_obstructed : Simulation.Machine :=
  Simulation.run [sim_front_falls; sim_safetyA_falls] Simulation_ready.

(** Cycles after which both request outputs are [HIGH]: front entry opens
    gate A, an obstruction of gate A with the middle zone occupied, then the
    obstruction clears while the gate-A motion input is high. *)
Definition Sketch_breach : list Lines :=
  [ Sketch.lines snap_front;
    Sketch.lines snap_middle_obstructedA;
    Sketch.lines snap_middle_movingA ].
Definition Simulation_breach : list Lines :=
  [ sim_front_falls; sim_safetyA_middle_fall;
    sim_safetyA_rises; sim_safetyA_middle_fall ].

(** The level-sensing sketch after a back entry has opened gate B, and the
    edge-toggled one likewise. *)
Definition Sketch_B_open : Sketch.Machine :=
  Sketch.run [Sketch.lines snap_back] Sketch_ready.
Definition Simulation_B_open : Simulation.Machine :=
  Simulation.run [sim_back_falls] Simulation_ready.

(** The first two cycles of a front entry: gate A opens, then closes behind
    the agent once the middle zone is occupied. *)
Definition Sketch_in_chamber : Sketch.Machine :=
  Sketch.run [Sketch.lines snap_front; Sketch.lines snap_front_middle]
             Sketch_ready.
Definition Simulation_in_chamber : Simulation.Machine :=
  Simulation.run [sim_front_moving_fall; sim_middle_falls] Simulation_ready.

(** A veto taken while the middle zone is occupied. *)
Definition Sketch_trapped : Sketch.Machine :=
  Sketch.run [Sketch.lines snap_middle_obstructedA] Sketch_ready.
Definition Simulation_trapped : Simulation.Machine :=
  Simulation.run [sim_safetyA_middle_fall; sim_safetyA_rises]
                 Simulation_ready.

(** Machines reached from [setup] by cycles in which no safety sensor was
    ever active. *)
Inductive Sketch_undisturbed : Sketch.Machine -> Prop :=
  | Sketch_undisturbed_setup : Sketch_undisturbed Sketch_ready
  | Sketch_undisturbed_loop io m :
      Sketch_undisturbed m ->
      obstructed (Sketch.sample io) = false ->
      Sketch_undisturbed (exec (Sketch.loop io) m).

Inductive Simulation_undisturbed : Simulation.Machine -> Prop :=
  | Simulation_undisturbed_setup : Simulation_undisturbed Simulation_ready
  | Simulation_undisturbed_loop io m :
      Simulation_undisturbed m ->
      obstructed (Simulation.sample (Simulation.sensed io m)) = false ->
      Simulation_undisturbed (exec (Simulation.loop io) m).

(** The levels of the request outputs of gates A and B that go with each
    sequencer state when the sequencer runs undisturbed. *)
Definition gates_of (st : AirlockState) : option bool * option bool :=
  match st with
  | ST_FRONT_ENTER => (Some HIGH, Some LOW)
  | ST_BACK_EXIT | ST_BACK_ENTER => (Some LOW, Some HIGH)
  | ST_IDLE | ST_MIDDLE_OCCUPIED | ST_FRONT_EXIT | ST_SAFETY_LOCK =>
      (Some LOW, Some LOW)
  end.

(** The request output a gate number addresses: gate 0 is gate A, every
    other number is gate B. *)
Definition gate_pin (gate : Z) : Z :=
  if gate =? 0 then GATE_REQUEST_A else GATE_REQUEST_B.

(** A strip of [n] pixels all holding and showing one colour. *)
Definition uniform_strip (n : nat) (color : Z) : NeoPixel :=
  mkNeoPixel (replicate n color) (replicate n color).

(** The edge rule of [loop] for one input line: the stored boolean flips
    when the line was [HIGH] in the previous cycle and is [LOW] now. *)
Definition toggled (last cur v : bool) : bool :=
  if eqb last HIGH && eqb cur LOW then negb v else v.

(** Every colour either sketch ever puts on the strip. *)
Definition palette : list Z := RED :: nominal_colors.

(** The sequencer state after a cycle, as a function of the state before
    and of the snapshot alone.  [exit_when_back] is the level of the back
    zone flag at which [ST_BACK_EXIT] is left: [false] in the level-sensing
    sketch ([if(!back)]), [true] in the edge-toggled one ([if(back)]). *)
Definition next_state (exit_when_back : bool)
    (st : AirlockState) (s : SensorSnapshot) : AirlockState :=
  if obstructed s then
    if middle s then ST_MIDDLE_OCCUPIED else ST_SAFETY_LOCK
  else
    match st with
    | ST_IDLE =>
        if front s && (back s || negb (middle s)) then ST_FRONT_ENTER
        else if back s && negb (middle s) then ST_BACK_ENTER
        else ST_IDLE
    | ST_FRONT_ENTER =>
        if negb (movingA s) && middle s then ST_MIDDLE_OCCUPIED
        else ST_FRONT_ENTER
    | ST_MIDDLE_OCCUPIED =>
        if movingA s then ST_BACK_EXIT else ST_MIDDLE_OCCUPIED
    | ST_BACK_EXIT =>
        if negb (movingB s) && eqb (back s) exit_when_back then ST_IDLE
        else ST_BACK_EXIT
    | ST_SAFETY_LOCK => ST_IDLE
    | ST_BACK_ENTER => ST_BACK_ENTER
    | ST_FRONT_EXIT => ST_FRONT_EXIT
    end.

(** The two sketches hold the same sequencer state, the same output levels
    and the same strip. *)
Definition agree (m : Sketch.Machine) (m' : Simulation.Machine) : Prop :=
  Sketch.currentState m = Simulation.currentState m'
  /\ Sketch.outputs m = Simulation.outputs m'
  /\ Sketch.ledStrip m = Simulation.ledStrip m'.

(** A snapshot with no safety sensor active and both outer zones free. *)
Definition outer_zones_free (s : SensorSnapshot) : Prop :=
  obstructed s = false /\ front s = false /\ back s = false.

(** Machines in [ST_BACK_EXIT]: the front entry carried on until gate B has
    been opened. *)
Definition Sketch_B_exiting : Sketch.Machine :=
  Sketch.run [Sketch.lines snap_middle_movingA] Sketch_in_chamber.
Definition sim_movingA_rises : Lines :=
  Simulation.lines [LOW; HIGH; LOW; HIGH; HIGH; HIGH; LOW].
Definition Simulation_B_exiting : Simulation.Machine :=
  Simulation.run [sim_movingA_rises; sim_middle_falls] Simulation_in_chamber.
Definition snap_exit_back_free : SensorSnapshot :=
  mkSnapshot true true false false false true false.

(** The text one [report] prints, and the text of the whole dump for an
    array of booleans. *)
Definition report_text (label : string) (v : bool) : string :=
  (label ++ (if v then "1" else "0") ++ Simulation.newline)%string.

Definition dump_text (bs : list bool) : string :=
  (report_text "PRESENCE_FRONT: " (Simulation.elem bs 0)
   ++ report_text "GATE_SAFETY_A: " (Simulation.elem bs 1)
   ++ report_text "PRESENCE_MIDDLE: " (Simulation.elem bs 2)
   ++ report_text "GATE_SAFETY_B: " (Simulation.elem bs 3)
   ++ report_text "PRESENCE_BACK: " (Simulation.elem bs 4)
   ++ report_text "GATE_MOVING_A: " (Simulation.elem bs 5)
   ++ report_text "GATE_MOVING_B: " (Simulation.elem bs 6)
   ++ Simulation.newline)%string.

(** A reachable idle machine with gate B still commanded open: a back
    entry opens gate B, an obstruction of gate B drops the close request of
    the safety branch, and once the obstruction has cleared the state goes
    back to [ST_IDLE]. *)
Definition Sketch_idle_B_open : Sketch.Machine :=
  Sketch.run [ Sketch.lines snap_back; Sketch.lines snap_obstructedB;
               Sketch.lines snap_quiet ] Sketch_ready.
Definition sim_safetyB_falls : Lines :=
  Simulation.lines [HIGH; HIGH; HIGH; LOW; LOW; HIGH; HIGH].
Definition sim_front_falls_back_held : Lines :=
  Simulation.lines [LOW; HIGH; HIGH; LOW; LOW; HIGH; HIGH].
Definition Simulation_idle_B_open : Simulation.Machine :=
  Simulation.run [ sim_back_falls; sim_safetyB_falls;
                   sim_back_falls; sim_safetyB_falls ] Simulation_ready.





(** * Properties *)

(** ** Commands *)

Lemma exec_bind {S A B : Type} (c : Cmd S A) (k : A -> Cmd S B) (s : S) :
  exec (bind c k) s = exec (k (result c s)) (exec c s).
Proof. unfold exec, result, bind. destruct (c s) as [a s']. reflexivity. Qed.

Lemma cmd_unit_eta {S : Type} (c : Cmd S unit) (s : S) : c s = (tt, exec c s).
Proof. unfold exec. destruct (c s) as [[] s']. reflexivity. Qed.

(** ** The status strip *)

(** Running the [for] loop from index [i] for the [n] remaining pixels
    overwrites exactly the pixels [i .. i+n-1]. *)
Lemma fillPixels_pixels n i color s :
  (i + n)%nat = length (pixels s) ->
  pixels (fillPixels n i color s)
  = take i (pixels s) ++ replicate n color.
Proof.
  revert i s. induction n as [|n IH]; intros i s Hlen; simpl.
  - rewrite Nat.add_0_r in Hlen. rewrite Hlen, firstn_all, app_nil_r.
    reflexivity.
  - rewrite IH by (simpl; rewrite length_insert; lia).
    simpl. erewrite take_S_r by (apply list_lookup_insert_eq; lia).
    rewrite take_insert_ge by lia.
    rewrite <- app_assoc. reflexivity.
Qed.

Lemma fillPixels_all color s :
  pixels (fillPixels (numPixels s) 0 color s) = replicate (numPixels s) color.
Proof. apply fillPixels_pixels. reflexivity. Qed.

(** [updateLEDs] shows one colour on every pixel of the strip. *)
Lemma paint_shown color s :
  shown (paint color s) = replicate (numPixels s) color.
Proof.
  unfold paint, show, numPixels. simpl.
  rewrite fillPixels_pixels by reflexivity. reflexivity.
Qed.

Lemma RED_not_nominal : RED ∉ nominal_colors.
Proof.
  unfold nominal_colors. rewrite !elem_of_cons, elem_of_nil.
  intros [H|[H|[H|[H|[H|[]]]]]]; discriminate H.
Qed.

(** ** The gate wrapper *)

(** With its safety line active, [operateGate] returns before the write,
    whatever level was requested. *)
Lemma Sketch_operateGate_blocked io gate open m :
  Sketch_blocked io gate = true ->
  Sketch.operateGate io gate open m = (tt, m).
Proof.
  unfold Sketch_blocked, Sketch.operateGate.
  destruct (gate =? 0); intros ->; reflexivity.
Qed.

Lemma Sketch_operateGate_passes io gate open m :
  Sketch_blocked io gate = false ->
  Sketch.operateGate io gate open m
  = Sketch.digitalWrite
      (if gate =? 0 then GATE_REQUEST_A else GATE_REQUEST_B) open m.
Proof.
  unfold Sketch_blocked, Sketch.operateGate.
  destruct (gate =? 0); intros ->; reflexivity.
Qed.

Lemma Simulation_operateGate_blocked gate open m :
  Simulation_blocked m gate = true ->
  Simulation.operateGate gate open m = (tt, m).
Proof.
  unfold Simulation_blocked, Simulation.operateGate.
  destruct (gate =? 0); intros ->; reflexivity.
Qed.

Lemma Simulation_operateGate_passes gate open m :
  Simulation_blocked m gate = false ->
  Simulation.operateGate gate open m
  = Simulation.digitalWrite
      (if gate =? 0 then GATE_REQUEST_A else GATE_REQUEST_B) open m.
Proof.
  unfold Simulation_blocked, Simulation.operateGate.
  destruct (gate =? 0); intros ->; reflexivity.
Qed.

(** ** Sampling in the edge-toggled sketch *)

Lemma Simulation_edge_frame cur i m :
  Simulation.currentState (exec (Simulation.edge cur i) m)
  = Simulation.currentState m
  /\ Simulation.outputs (exec (Simulation.edge cur i) m)
     = Simulation.outputs m
  /\ Simulation.ledStrip (exec (Simulation.edge cur i) m)
     = Simulation.ledStrip m.
Proof.
  unfold Simulation.edge, exec, bind.
  destruct (eqb (Simulation.elem (Simulation.lastb m) i) HIGH
            && eqb (Simulation.elem cur i) LOW);
    simpl; repeat split; reflexivity.
Qed.

(** The edge loop and the diagnostic dump leave the sequencer state, the
    gate outputs and the strip alone. *)
Lemma Simulation_edges_frame n i cur m :
  Simulation.currentState (exec (Simulation.edges n i cur) m)
  = Simulation.currentState m
  /\ Simulation.outputs (exec (Simulation.edges n i cur) m)
     = Simulation.outputs m
  /\ Simulation.ledStrip (exec (Simulation.edges n i cur) m)
     = Simulation.ledStrip m.
Proof.
  revert i m. induction n as [|n IH]; intros i m; simpl.
  - repeat split; reflexivity.
  - rewrite exec_bind.
    destruct (IH (S i) (exec (Simulation.edge cur i) m)) as (Hs & Ho & Hl).
    destruct (Simulation_edge_frame cur i m) as (Hs' & Ho' & Hl').
    rewrite Hs, Ho, Hl, Hs', Ho', Hl'. repeat split; reflexivity.
Qed.

Lemma Simulation_sensed_frame io m :
  Simulation.currentState (Simulation.sensed io m)
  = Simulation.currentState m
  /\ Simulation.outputs (Simulation.sensed io m) = Simulation.outputs m
  /\ Simulation.ledStrip (Simulation.sensed io m) = Simulation.ledStrip m.
Proof.
  unfold Simulation.sensed. rewrite exec_bind.
  destruct (Simulation_edges_frame 7 0 (Simulation.currentb io) m)
    as (Hs & Ho & Hl).
  rewrite <- Hs, <- Ho, <- Hl. repeat split; reflexivity.
Qed.

(** A cycle is the control part run on the freshly sampled booleans. *)
Lemma Simulation_loop_sensed io m :
  exec (Simulation.loop io) m
  = exec Simulation.control (Simulation.sensed io m).
Proof.
  unfold Simulation.loop, Simulation.sensed.
  rewrite !exec_bind. reflexivity.
Qed.

(** ** Initialisation *)

(** C10. After [setup], in either sketch and whatever the outputs held
    before, both gate request outputs are configured as outputs and driven
    [LOW], the sequencer state is the one the globals were initialised
    with, [ST_IDLE], and so the two gates are not both commanded open. *)
Theorem setup_gates_closed_idle :
  (forall m : Sketch.Machine,
     Sketch.requestA (exec Sketch.setup m) = Some LOW
     /\ Sketch.requestB (exec Sketch.setup m) = Some LOW
     /\ Sketch.modes (exec Sketch.setup m) !! GATE_REQUEST_A = Some OUTPUT
     /\ Sketch.modes (exec Sketch.setup m) !! GATE_REQUEST_B = Some OUTPUT
     /\ Sketch.currentState (exec Sketch.setup m) = Sketch.currentState m)
  /\ Sketch.currentState (exec Sketch.setup Sketch.power_on) = ST_IDLE
  /\ ~ Sketch.bothOpen (exec Sketch.setup Sketch.power_on)
  /\ (forall m : Simulation.Machine,
     Simulation.requestA (exec Simulation.setup m) = Some LOW
     /\ Simulation.requestB (exec Simulation.setup m) = Some LOW
     /\ Simulation.modes (exec Simulation.setup m) !! GATE_REQUEST_A
        = Some OUTPUT
     /\ Simulation.modes (exec Simulation.setup m) !! GATE_REQUEST_B
        = Some OUTPUT
     /\ Simulation.currentState (exec Simulation.setup m)
        = Simulation.currentState m)
  /\ Simulation.currentState (exec Simulation.setup Simulation.power_on)
     = ST_IDLE
  /\ ~ Simulation.bothOpen (exec Simulation.setup Simulation.power_on).
Proof.
  repeat apply conj.
  - intros m. unfold Sketch.requestA, Sketch.requestB. simpl.
    repeat apply conj; try reflexivity.
    + rewrite !lookup_insert_ne by discriminate. apply lookup_insert_eq.
    + rewrite lookup_insert_ne by discriminate. apply lookup_insert_eq.
    + rewrite !lookup_insert_ne by discriminate. apply lookup_insert_eq.
    + rewrite lookup_insert_ne by discriminate. apply lookup_insert_eq.
  - reflexivity.
  - intros [HA _]. vm_compute in HA. discriminate HA.
  - intros m. unfold Simulation.requestA, Simulation.requestB. simpl.
    repeat apply conj; try reflexivity.
    + rewrite !lookup_insert_ne by discriminate. apply lookup_insert_eq.
    + rewrite lookup_insert_ne by discriminate. apply lookup_insert_eq.
    + rewrite !lookup_insert_ne by discriminate. apply lookup_insert_eq.
    + rewrite lookup_insert_ne by discriminate. apply lookup_insert_eq.
  - reflexivity.
  - intros [HA _]. vm_compute in HA. discriminate HA.
Qed.

(** ** The gateway: vetoes and their reporting *)

(** C3, as amended. A call of [operateGate] with [open = true] while the
    addressed gate's own safety sensor reports an obstruction is a no-op:
    the request outputs, and every other part of the controller, are left
    as they were.  The function is [void]: the value handed back is the
    unit value, and nothing is reported to the caller. *)
Theorem operateGate_veto_silent
    (io : Lines) (gate : Z) (m : Sketch.Machine) (m' : Simulation.Machine) :
  Sketch_blocked io gate = true ->
  Simulation_blocked m' gate = true ->
  Sketch.operateGate io gate true m = (tt, m)
  /\ Sketch.requestA (exec (Sketch.operateGate io gate true) m)
     = Sketch.requestA m
  /\ Sketch.requestB (exec (Sketch.operateGate io gate true) m)
     = Sketch.requestB m
  /\ Simulation.operateGate gate true m' = (tt, m')
  /\ Simulation.requestA (exec (Simulation.operateGate gate true) m')
     = Simulation.requestA m'
  /\ Simulation.requestB (exec (Simulation.operateGate gate true) m')
     = Simulation.requestB m'.
Proof.
  intros Hb Hb'. unfold exec.
  rewrite (Sketch_operateGate_blocked io gate true m Hb).
  rewrite (Simulation_operateGate_blocked gate true m' Hb').
  repeat split; reflexivity.
Qed.

Lemma operateGate_veto_silent_witness :
  Sketch_blocked (Sketch.lines snap_obstructedA) 0 = true
  /\ Simulation_blocked Simulation_A_open_obstructed 0 = true
  /\ Sketch.operateGate (Sketch.lines snap_obstructedA) 0 true Sketch_A_open
     = (tt, Sketch_A_open)
  /\ Simulation.operateGate 0 true Simulation_A_open_obstructed
     = (tt, Simulation_A_open_obstructed).
Proof.
  split; [reflexivity|]. split; [reflexivity|].
  pose proof (operateGate_veto_silent
                (Sketch.lines snap_obstructedA) 0
                Sketch_A_open Simulation_A_open_obstructed
                eq_refl eq_refl) as (H1 & _ & _ & H2 & _).
  split; [exact H1 | exact H2].
Defined.

(** C3, as stated, fails: no reading of what [operateGate] hands back (even
    together with the whole controller state it leaves behind) tells a
    vetoed open request from one that was carried out.  With gate A already
    commanded open, the vetoed call and the performed call give the very
    same result; and in the edge-toggled sketch the value returned is the
    unit value in both cases. *)
Lemma operateGate_veto_unreported :
  (~ exists outcome : unit * Sketch.Machine -> Outcome,
       outcome (Sketch.operateGate (Sketch.lines snap_obstructedA) 0 true
                                   Sketch_A_open) = Rejected
       /\ outcome (Sketch.operateGate (Sketch.lines snap_quiet) 0 true
                                      Sketch_A_open) = Done)
  /\ (~ exists outcome : unit -> Outcome,
       outcome (result (Simulation.operateGate 0 true)
                       Simulation_A_open_obstructed) = Rejected
       /\ outcome (result (Simulation.operateGate 0 true)
                          Simulation_A_open) = Done).
Proof.
  split.
  - intros (outcome & Hrej & Hdone).
    assert (Heq : Sketch.operateGate (Sketch.lines snap_obstructedA) 0 true
                    Sketch_A_open
                  = Sketch.operateGate (Sketch.lines snap_quiet) 0 true
                      Sketch_A_open) by (vm_compute; reflexivity).
    rewrite Heq in Hrej. congruence.
  - intros (outcome & Hrej & Hdone).
    destruct (result (Simulation.operateGate 0 true)
                     Simulation_A_open_obstructed).
    destruct (result (Simulation.operateGate 0 true) Simulation_A_open).
    congruence.
Qed.

(** C4 fails on the code: the guard of [operateGate] does not look at
    [open].  With gate A commanded open and its safety sensor reporting an
    obstruction, a close request returns before the write and the output
    stays [HIGH], in both sketches. *)
Theorem operateGate_close_vetoed :
  Sketch.requestA Sketch_A_open = Some HIGH
  /\ Sketch_blocked (Sketch.lines snap_obstructedA) 0 = true
  /\ Sketch.requestA
       (exec (Sketch.operateGate (Sketch.lines snap_obstructedA) 0 false)
             Sketch_A_open) = Some HIGH
  /\ Simulation.requestA Simulation_A_open_obstructed = Some HIGH
  /\ Simulation_blocked Simulation_A_open_obstructed 0 = true
  /\ Simulation.requestA
       (exec (Simulation.operateGate 0 false) Simulation_A_open_obstructed)
     = Some HIGH.
Proof. repeat split; vm_compute; reflexivity. Qed.

(** When the safety line of the gate is inactive the close request is
    carried out. *)
Lemma Sketch_operateGate_close_clear io m :
  (Sketch_blocked io 0 = false ->
   Sketch.requestA (exec (Sketch.operateGate io 0 false) m) = Some LOW)
  /\ (Sketch_blocked io 1 = false ->
      Sketch.requestB (exec (Sketch.operateGate io 1 false) m) = Some LOW).
Proof.
  split; intros Hb; unfold exec;
    rewrite Sketch_operateGate_passes by exact Hb; simpl;
    apply lookup_insert_eq.
Qed.

(** ** Reachability *)

Lemma Sketch_run_reachable ios m :
  Sketch.reachable m -> Sketch.reachable (Sketch.run ios m).
Proof.
  revert m. induction ios as [|io rest IH]; intros m Hm; simpl.
  - exact Hm.
  - apply IH. apply Sketch.reach_loop. exact Hm.
Qed.

Lemma Simulation_run_reachable ios m :
  Simulation.reachable m -> Simulation.reachable (Simulation.run ios m).
Proof.
  revert m. induction ios as [|io rest IH]; intros m Hm; simpl.
  - exact Hm.
  - apply IH. apply Simulation.reach_loop. exact Hm.
Qed.

(** ** The safety branch *)

(** What a cycle does when a safety line is active, in the level-sensing
    sketch: the state is forced, the strip turns red, and each gate whose own
    safety line is inactive is driven closed, while the request output of a
    gate whose own safety line is active keeps its level. *)
Lemma Sketch_veto_cycle io m :
  obstructed (Sketch.sample io) = true ->
  Sketch.currentState (exec (Sketch.loop io) m)
  = (if middle (Sketch.sample io) then ST_MIDDLE_OCCUPIED else ST_SAFETY_LOCK)
  /\ Sketch.indicator (exec (Sketch.loop io) m)
     = replicate (numPixels (Sketch.ledStrip m)) RED
  /\ Sketch.requestA (exec (Sketch.loop io) m)
     = (if safetyA (Sketch.sample io) then Sketch.requestA m else Some LOW)
  /\ Sketch.requestB (exec (Sketch.loop io) m)
     = (if safetyB (Sketch.sample io) then Sketch.requestB m else Some LOW).
Proof.
  unfold obstructed, Sketch.sample, Sketch.loop, Sketch.operateGate,
    Sketch.indicator, Sketch.requestA, Sketch.requestB. simpl.
  intros Hobs. rewrite Hobs.
  destruct (eqb (digitalRead io GATE_SAFETY_A) LOW) eqn:HA;
    destruct (eqb (digitalRead io GATE_SAFETY_B) LOW) eqn:HB;
    try discriminate Hobs;
    destruct (eqb (digitalRead io PRESENCE_MIDDLE) LOW) eqn:HM;
    simpl; rewrite ?fillPixels_all;
    repeat split; try reflexivity;
    rewrite ?lookup_insert_eq; try reflexivity;
    rewrite ?lookup_insert_ne by discriminate;
    rewrite ?lookup_insert_eq; reflexivity.
Qed.

(** C2 fails on the code. After a front entry has opened gate A, a cycle in
    which the gate-A safety sensor reports an obstruction forces the state
    to [ST_SAFETY_LOCK] but leaves the gate-A request output [HIGH]: the
    close request of the safety branch is dropped by the guard of
    [operateGate].  Both machines are reachable from [setup]. *)
Theorem obstruction_leaves_gate_open :
  Sketch.reachable Sketch_A_open
  /\ obstructed (Sketch.sample (Sketch.lines snap_obstructedA)) = true
  /\ Sketch.currentState
       (exec (Sketch.loop (Sketch.lines snap_obstructedA)) Sketch_A_open)
     = ST_SAFETY_LOCK
  /\ Sketch.requestA
       (exec (Sketch.loop (Sketch.lines snap_obstructedA)) Sketch_A_open)
     = Some HIGH
  /\ Simulation.reachable Simulation_A_open
  /\ obstructed
       (Simulation.sample (Simulation.sensed sim_safetyA_falls
                                             Simulation_A_open)) = true
  /\ Simulation.currentState
       (exec (Simulation.loop sim_safetyA_falls) Simulation_A_open)
     = ST_SAFETY_LOCK
  /\ Simulation.requestA
       (exec (Simulation.loop sim_safetyA_falls) Simulation_A_open)
     = Some HIGH.
Proof.
  split; [apply Sketch_run_reachable, Sketch.reach_setup|].
  do 3 (split; [vm_compute; reflexivity|]).
  split; [apply Simulation_run_reachable, Simulation.reach_setup|].
  repeat split; vm_compute; reflexivity.
Qed.

(** ** Mutual exclusion *)

(** C1 fails on the code. In both sketches a run from [setup] reaches a
    machine whose two request outputs are [HIGH] together: gate A is opened
    for a front entry, an obstruction of gate A with the middle zone occupied
    moves the state to [ST_MIDDLE_OCCUPIED] without closing gate A, and once
    the obstruction has cleared the sequencer opens gate B. *)
Theorem mutual_exclusion_breached :
  Sketch.reachable (Sketch.run Sketch_breach Sketch_ready)
  /\ Sketch.bothOpen (Sketch.run Sketch_breach Sketch_ready)
  /\ Simulation.reachable (Simulation.run Simulation_breach Simulation_ready)
  /\ Simulation.bothOpen (Simulation.run Simulation_breach Simulation_ready).
Proof.
  split; [apply Sketch_run_reachable, Sketch.reach_setup|].
  split; [split; vm_compute; reflexivity|].
  split; [apply Simulation_run_reachable, Simulation.reach_setup|].
  split; vm_compute; reflexivity.
Qed.

(** ** The sequencer *)

(** Case analysis on the seven input lines of a cycle. *)
Ltac line_cases io :=
  destruct (digitalRead io PRESENCE_FRONT) eqn:?HF;
  destruct (digitalRead io PRESENCE_MIDDLE) eqn:?HM;
  destruct (digitalRead io PRESENCE_BACK) eqn:?HB;
  destruct (digitalRead io GATE_SAFETY_A) eqn:?HSA;
  destruct (digitalRead io GATE_SAFETY_B) eqn:?HSB;
  destruct (digitalRead io GATE_MOVING_A) eqn:?HMA;
  destruct (digitalRead io GATE_MOVING_B) eqn:?HMB.

Ltac sketch_unfold :=
  unfold Sketch.loop, Sketch.sequence, Sketch.operateGate, Sketch.sample,
    obstructed, exec, bind, ret, Sketch.getState in *;
  cbv beta iota in *.

(** The missing cases of the [switch]: in [ST_BACK_ENTER] and in
    [ST_FRONT_EXIT] a cycle without obstruction changes nothing at all. *)
Lemma Sketch_mirror_states_stuck io m :
  Sketch.currentState m = ST_BACK_ENTER
  \/ Sketch.currentState m = ST_FRONT_EXIT ->
  obstructed (Sketch.sample io) = false ->
  Sketch.loop io m = (tt, m).
Proof.
  intros Hst Hclear. sketch_unfold. cbn in Hclear. rewrite Hclear.
  destruct Hst as [-> | ->]; reflexivity.
Qed.

(** No cycle enters [ST_FRONT_EXIT]. *)
Lemma Sketch_loop_not_front_exit io m :
  Sketch.currentState m <> ST_FRONT_EXIT ->
  Sketch.currentState (exec (Sketch.loop io) m) <> ST_FRONT_EXIT.
Proof.
  intros Hst. sketch_unfold. line_cases io; cbn;
    destruct (Sketch.currentState m) eqn:Hcur; cbn;
    rewrite ?Hcur; congruence.
Qed.

Lemma Sketch_front_exit_unreachable m :
  Sketch.reachable m -> Sketch.currentState m <> ST_FRONT_EXIT.
Proof.
  induction 1 as [|io m Hm IH].
  - discriminate.
  - apply Sketch_loop_not_front_exit. exact IH.
Qed.

(** C5 fails on the code: the [switch] has no case for [ST_BACK_ENTER] (nor
    for [ST_FRONT_EXIT]).  After a back entry has opened gate B, a cycle
    with the middle zone occupied and gate B not moving leaves the state
    [ST_BACK_ENTER] and the gate-B request output [HIGH], in both
    sketches. *)
Theorem back_enter_has_no_transition :
  Sketch.currentState Sketch_B_open = ST_BACK_ENTER
  /\ Sketch.requestB Sketch_B_open = Some HIGH
  /\ middle (Sketch.sample (Sketch.lines snap_middle)) = true
  /\ movingB (Sketch.sample (Sketch.lines snap_middle)) = false
  /\ obstructed (Sketch.sample (Sketch.lines snap_middle)) = false
  /\ Sketch.currentState
       (exec (Sketch.loop (Sketch.lines snap_middle)) Sketch_B_open)
     = ST_BACK_ENTER
  /\ Sketch.requestB
       (exec (Sketch.loop (Sketch.lines snap_middle)) Sketch_B_open)
     = Some HIGH
  /\ Simulation.currentState Simulation_B_open = ST_BACK_ENTER
  /\ Simulation.requestB Simulation_B_open = Some HIGH
  /\ Simulation.sample (Simulation.sensed sim_back_middle_fall
                                          Simulation_B_open)
     = mkSnapshot false true true false false true false
  /\ Simulation.currentState
       (exec (Simulation.loop sim_back_middle_fall) Simulation_B_open)
     = ST_BACK_ENTER
  /\ Simulation.requestB
       (exec (Simulation.loop sim_back_middle_fall) Simulation_B_open)
     = Some HIGH.
Proof. repeat split; vm_compute; reflexivity. Qed.

(** When no safety line is active the cycle is the [switch] alone. *)
Lemma Sketch_loop_clear io m :
  obstructed (Sketch.sample io) = false ->
  Sketch.loop io m
  = Sketch.sequence io (front (Sketch.sample io)) (middle (Sketch.sample io))
                    (back (Sketch.sample io)) m.
Proof.
  unfold obstructed, Sketch.sample, Sketch.loop. cbn.
  intros ->. reflexivity.
Qed.

(** [case ST_SAFETY_LOCK]: with both safety lines inactive the state goes
    back to [ST_IDLE] and the strip turns green. *)
Lemma Sketch_safety_lock_step io m :
  Sketch.currentState m = ST_SAFETY_LOCK ->
  obstructed (Sketch.sample io) = false ->
  Sketch.currentState (exec (Sketch.loop io) m) = ST_IDLE
  /\ Sketch.outputs (exec (Sketch.loop io) m) = Sketch.outputs m.
Proof.
  intros Hst Hclear. unfold exec. rewrite Sketch_loop_clear by exact Hclear.
  unfold obstructed, Sketch.sample in Hclear. cbn in Hclear.
  apply orb_false_iff in Hclear as [HA HB].
  unfold Sketch.sequence, bind, Sketch.getState. rewrite Hst.
  destruct (digitalRead io GATE_SAFETY_A); [|discriminate HA].
  destruct (digitalRead io GATE_SAFETY_B); [|discriminate HB].
  split; reflexivity.
Qed.

(** [case ST_MIDDLE_OCCUPIED]: gate B is opened when the gate-A motion line
    reads [HIGH]; otherwise nothing happens. *)
Lemma Sketch_middle_occupied_step io m :
  Sketch.currentState m = ST_MIDDLE_OCCUPIED ->
  obstructed (Sketch.sample io) = false ->
  Sketch.currentState (exec (Sketch.loop io) m)
  = (if movingA (Sketch.sample io) then ST_BACK_EXIT else ST_MIDDLE_OCCUPIED)
  /\ Sketch.requestB (exec (Sketch.loop io) m)
     = (if movingA (Sketch.sample io) then Some HIGH else Sketch.requestB m)
  /\ Sketch.requestA (exec (Sketch.loop io) m) = Sketch.requestA m.
Proof.
  intros Hst Hclear. unfold exec. rewrite Sketch_loop_clear by exact Hclear.
  unfold obstructed, Sketch.sample in Hclear. cbn in Hclear.
  apply orb_false_iff in Hclear as [HA HB].
  unfold Sketch.sequence, Sketch.operateGate, bind, Sketch.getState,
    Sketch.requestA, Sketch.requestB.
  rewrite Hst. cbn. rewrite HB.
  destruct (digitalRead io GATE_MOVING_A); cbn.
  - split; [reflexivity|]. split.
    + apply lookup_insert_eq.
    + apply lookup_insert_ne. discriminate.
  - rewrite Hst. repeat split; reflexivity.
Qed.

(** C6 fails on the code at its third step. The first two steps hold: a
    front-only snapshot opens gate A and enters [ST_FRONT_ENTER]; front and
    middle occupied with gate A not moving closes gate A and enters
    [ST_MIDDLE_OCCUPIED].  But with the middle zone occupied and gate A not
    moving the sequencer stays in [ST_MIDDLE_OCCUPIED] and gate B stays
    closed: [case ST_MIDDLE_OCCUPIED] waits for the gate-A motion input to
    be active instead. *)
Theorem entry_trace_stalls_in_chamber :
  Sketch.currentState Sketch_A_open = ST_FRONT_ENTER
  /\ Sketch.requestA Sketch_A_open = Some HIGH
  /\ Sketch.currentState Sketch_in_chamber = ST_MIDDLE_OCCUPIED
  /\ Sketch.requestA Sketch_in_chamber = Some LOW
  /\ Sketch.sample (Sketch.lines snap_middle) = snap_middle
  /\ Sketch.currentState
       (exec (Sketch.loop (Sketch.lines snap_middle)) Sketch_in_chamber)
     = ST_MIDDLE_OCCUPIED
  /\ Sketch.requestB
       (exec (Sketch.loop (Sketch.lines snap_middle)) Sketch_in_chamber)
     = Some LOW
  /\ Simulation.currentState
       (Simulation.run [sim_front_moving_fall] Simulation_ready)
     = ST_FRONT_ENTER
  /\ Simulation.requestA
       (Simulation.run [sim_front_moving_fall] Simulation_ready) = Some HIGH
  /\ Simulation.currentState Simulation_in_chamber = ST_MIDDLE_OCCUPIED
  /\ Simulation.requestA Simulation_in_chamber = Some LOW
  /\ Simulation.sample
       (Simulation.sensed sim_middle_falls Simulation_in_chamber)
     = snap_front_middle
  /\ Simulation.currentState
       (exec (Simulation.loop sim_middle_falls) Simulation_in_chamber)
     = ST_MIDDLE_OCCUPIED
  /\ Simulation.requestB
       (exec (Simulation.loop sim_middle_falls) Simulation_in_chamber)
     = Some LOW.
Proof. repeat split; vm_compute; reflexivity. Qed.

(** ** The control part of the edge-toggled sketch *)

(** Case analysis on the seven toggled booleans of a machine. *)
Ltac elem_cases m :=
  destruct (Simulation.elem (Simulation.b m) 0) eqn:?E0;
  destruct (Simulation.elem (Simulation.b m) 1) eqn:?E1;
  destruct (Simulation.elem (Simulation.b m) 2) eqn:?E2;
  destruct (Simulation.elem (Simulation.b m) 3) eqn:?E3;
  destruct (Simulation.elem (Simulation.b m) 4) eqn:?E4;
  destruct (Simulation.elem (Simulation.b m) 5) eqn:?E5;
  destruct (Simulation.elem (Simulation.b m) 6) eqn:?E6.

Ltac simulation_unfold :=
  unfold Simulation.control, Simulation.sequence, Simulation.operateGate,
    Simulation.sample, obstructed, exec, bind, ret,
    Simulation.requestA, Simulation.requestB, Simulation.indicator in *.

Lemma Simulation_veto_control m :
  obstructed (Simulation.sample m) = true ->
  Simulation.currentState (exec Simulation.control m)
  = (if middle (Simulation.sample m)
     then ST_MIDDLE_OCCUPIED else ST_SAFETY_LOCK)
  /\ Simulation.indicator (exec Simulation.control m)
     = replicate (numPixels (Simulation.ledStrip m)) RED
  /\ Simulation.requestA (exec Simulation.control m)
     = (if safetyA (Simulation.sample m)
        then Simulation.requestA m else Some LOW)
  /\ Simulation.requestB (exec Simulation.control m)
     = (if safetyB (Simulation.sample m)
        then Simulation.requestB m else Some LOW).
Proof.
  simulation_unfold. cbn. intros Hobs.
  destruct (Simulation.elem (Simulation.b m) 1) eqn:E1;
    destruct (Simulation.elem (Simulation.b m) 3) eqn:E3;
    try discriminate Hobs;
    destruct (Simulation.elem (Simulation.b m) 2) eqn:E2;
    cbn; rewrite ?E1, ?E2, ?E3; cbn; rewrite ?E1, ?E2, ?E3; cbn;
    rewrite ?fillPixels_all;
    repeat split; try reflexivity;
    rewrite ?lookup_insert_eq; try reflexivity;
    rewrite ?lookup_insert_ne by discriminate;
    rewrite ?lookup_insert_eq; reflexivity.
Qed.

Lemma Simulation_safety_lock_control m :
  Simulation.currentState m = ST_SAFETY_LOCK ->
  obstructed (Simulation.sample m) = false ->
  Simulation.currentState (exec Simulation.control m) = ST_IDLE.
Proof.
  simulation_unfold. cbn. intros Hst Hclear.
  apply orb_false_iff in Hclear as [HA HB].
  apply negb_false_iff in HA, HB. rewrite HA, HB, Hst. reflexivity.
Qed.

Lemma Simulation_middle_occupied_control m :
  Simulation.currentState m = ST_MIDDLE_OCCUPIED ->
  obstructed (Simulation.sample m) = false ->
  Simulation.currentState (exec Simulation.control m)
  = (if movingA (Simulation.sample m)
     then ST_BACK_EXIT else ST_MIDDLE_OCCUPIED).
Proof.
  simulation_unfold. cbn. intros Hst Hclear.
  apply orb_false_iff in Hclear as [HA HB].
  apply negb_false_iff in HA, HB. rewrite HA, HB, Hst. cbn.
  destruct (Simulation.elem (Simulation.b m) 5); cbn;
    rewrite ?HB; cbn; rewrite ?Hst; reflexivity.
Qed.

(** ** Recovery *)

(** C7, as amended. Take any machine, a cycle whose snapshot has a safety
    sensor active, and then a cycle whose snapshot has both safety sensors
    clear.  If the veto was taken with the middle zone unoccupied (state
    [ST_SAFETY_LOCK]) the state is [ST_IDLE] after the second cycle.  If it
    was taken with the middle zone occupied (state [ST_MIDDLE_OCCUPIED]) the
    sequencer resumes from there instead: after the second cycle the state
    is [ST_MIDDLE_OCCUPIED] or [ST_BACK_EXIT]. *)
Theorem recovery_after_veto
    (io0 io : Lines) (m : Sketch.Machine)
    (io0' io' : Lines) (m' : Simulation.Machine) :
  obstructed (Sketch.sample io0) = true ->
  obstructed (Sketch.sample io) = false ->
  obstructed (Simulation.sample (Simulation.sensed io0' m')) = true ->
  obstructed
    (Simulation.sample
       (Simulation.sensed io' (exec (Simulation.loop io0') m'))) = false ->
  (if middle (Sketch.sample io0)
   then Sketch.currentState
          (exec (Sketch.loop io) (exec (Sketch.loop io0) m))
        = ST_MIDDLE_OCCUPIED
        \/ Sketch.currentState
             (exec (Sketch.loop io) (exec (Sketch.loop io0) m))
           = ST_BACK_EXIT
   else Sketch.currentState
          (exec (Sketch.loop io) (exec (Sketch.loop io0) m)) = ST_IDLE)
  /\ (if middle (Simulation.sample (Simulation.sensed io0' m'))
      then Simulation.currentState
             (exec (Simulation.loop io') (exec (Simulation.loop io0') m'))
           = ST_MIDDLE_OCCUPIED
           \/ Simulation.currentState
                (exec (Simulation.loop io') (exec (Simulation.loop io0') m'))
              = ST_BACK_EXIT
      else Simulation.currentState
             (exec (Simulation.loop io') (exec (Simulation.loop io0') m'))
           = ST_IDLE).
Proof.
  intros Hveto Hclear Hveto' Hclear'. split.
  - destruct (Sketch_veto_cycle io0 m Hveto) as (Hst & _).
    destruct (middle (Sketch.sample io0)).
    + destruct (Sketch_middle_occupied_step io _ Hst Hclear) as (Hnext & _).
      rewrite Hnext. destruct (movingA (Sketch.sample io)); auto.
    + apply Sketch_safety_lock_step; assumption.
  - set (m1 := exec (Simulation.loop io0') m') in *.
    assert (Hst : Simulation.currentState m1
                  = if middle (Simulation.sample (Simulation.sensed io0' m'))
                    then ST_MIDDLE_OCCUPIED else ST_SAFETY_LOCK).
    { unfold m1. rewrite Simulation_loop_sensed.
      apply Simulation_veto_control. exact Hveto'. }
    rewrite (Simulation_loop_sensed io' m1).
    destruct (Simulation_sensed_frame io' m1) as (Hfr & _).
    rewrite <- Hfr in Hst.
    destruct (middle (Simulation.sample (Simulation.sensed io0' m'))).
    + rewrite (Simulation_middle_occupied_control _ Hst Hclear').
      destruct (movingA (Simulation.sample (Simulation.sensed io' m1)));
        auto.
    + apply Simulation_safety_lock_control; assumption.
Qed.

Lemma recovery_after_veto_witness :
  obstructed (Sketch.sample (Sketch.lines snap_obstructedA)) = true
  /\ obstructed (Sketch.sample (Sketch.lines snap_quiet)) = false
  /\ obstructed
       (Simulation.sample
          (Simulation.sensed sim_front_falls Simulation_A_open_obstructed))
     = true
  /\ obstructed
       (Simulation.sample
          (Simulation.sensed sim_safetyA_falls
             (exec (Simulation.loop sim_front_falls)
                   Simulation_A_open_obstructed))) = false
  /\ Sketch.currentState
       (exec (Sketch.loop (Sketch.lines snap_quiet))
             (exec (Sketch.loop (Sketch.lines snap_obstructedA))
                   Sketch_A_open)) = ST_IDLE
  /\ Simulation.currentState
       (exec (Simulation.loop sim_safetyA_falls)
             (exec (Simulation.loop sim_front_falls)
                   Simulation_A_open_obstructed)) = ST_IDLE.
Proof.
  do 4 (split; [vm_compute; reflexivity|]).
  exact (recovery_after_veto
           (Sketch.lines snap_obstructedA) (Sketch.lines snap_quiet)
           Sketch_A_open
           sim_front_falls sim_safetyA_falls Simulation_A_open_obstructed
           eq_refl eq_refl eq_refl eq_refl).
Defined.

(** C7, as stated, fails: a veto taken with the middle zone occupied leaves
    the state [ST_MIDDLE_OCCUPIED], and the next snapshot with both safety
    sensors clear does not bring the state back to [ST_IDLE]. *)
Lemma recovery_not_always_idle :
  obstructed (Sketch.sample (Sketch.lines snap_middle_obstructedA)) = true
  /\ Sketch.currentState Sketch_trapped = ST_MIDDLE_OCCUPIED
  /\ obstructed (Sketch.sample (Sketch.lines snap_quiet)) = false
  /\ Sketch.currentState
       (exec (Sketch.loop (Sketch.lines snap_quiet)) Sketch_trapped)
     <> ST_IDLE
  /\ obstructed
       (Simulation.sample
          (Simulation.sensed sim_safetyA_rises
             (Simulation.run [sim_safetyA_middle_fall] Simulation_ready)))
     = true
  /\ Simulation.currentState Simulation_trapped = ST_MIDDLE_OCCUPIED
  /\ obstructed
       (Simulation.sample
          (Simulation.sensed sim_safetyA_middle_fall Simulation_trapped))
     = false
  /\ Simulation.currentState
       (exec (Simulation.loop sim_safetyA_middle_fall) Simulation_trapped)
     <> ST_IDLE.
Proof.
  repeat split; try (vm_compute; reflexivity);
    vm_compute; discriminate.
Qed.

(** ** The tie-break at idle *)

(** The tie-break when gate B is closed. In [ST_IDLE] with gate B commanded
    closed, a cycle whose snapshot
    has the front and back zones occupied, the middle zone free and no
    safety sensor active (whatever the motion inputs) enters
    [ST_FRONT_ENTER], drives the gate-A request output [HIGH] and leaves
    the gate-B request output [LOW].  This holds for both sketches. *)
Theorem front_priority_tie_break
    (io : Lines) (m : Sketch.Machine) (mA mB : bool)
    (io' : Lines) (m' : Simulation.Machine) (mA' mB' : bool) :
  Sketch.currentState m = ST_IDLE ->
  Sketch.requestB m = Some LOW ->
  Sketch.sample io = mkSnapshot true false true false false mA mB ->
  Simulation.currentState m' = ST_IDLE ->
  Simulation.requestB m' = Some LOW ->
  Simulation.sample (Simulation.sensed io' m')
  = mkSnapshot true false true false false mA' mB' ->
  (Sketch.currentState (exec (Sketch.loop io) m) = ST_FRONT_ENTER
   /\ Sketch.requestA (exec (Sketch.loop io) m) = Some HIGH
   /\ Sketch.requestB (exec (Sketch.loop io) m) = Some LOW)
  /\ (Simulation.currentState (exec (Simulation.loop io') m')
      = ST_FRONT_ENTER
      /\ Simulation.requestA (exec (Simulation.loop io') m') = Some HIGH
      /\ Simulation.requestB (exec (Simulation.loop io') m') = Some LOW).
Proof.
  intros Hst HB Hsnap Hst' HB' Hsnap'. split.
  - unfold Sketch.sample in Hsnap.
    injection Hsnap as HF HM HBk HSA HSB _ _.
    unfold Sketch.requestA, Sketch.requestB in *. sketch_unfold.
    rewrite HF, HM, HBk, HSA, HSB. cbn. rewrite Hst. cbn.
    split; [reflexivity|]. split.
    + apply lookup_insert_eq.
    + rewrite lookup_insert_ne by discriminate. exact HB.
  - rewrite Simulation_loop_sensed.
    destruct (Simulation_sensed_frame io' m') as (Hs & Ho & _).
    set (m1 := Simulation.sensed io' m') in *.
    unfold Simulation.requestB in HB'. rewrite <- Hs in Hst'.
    rewrite <- Ho in HB'. clearbody m1.
    simulation_unfold.
    injection Hsnap' as HF HM HBk HSA HSB _ _.
    apply negb_true_iff in HF, HBk. apply negb_false_iff in HM, HSA, HSB.
    rewrite HF, HM, HBk, HSA, HSB. cbn. rewrite Hst'. cbn.
    rewrite ?HSA. cbn.
    split; [reflexivity|]. split.
    + apply lookup_insert_eq.
    + rewrite lookup_insert_ne by discriminate. exact HB'.
Qed.

Lemma front_priority_tie_break_witness :
  Sketch.currentState Sketch_ready = ST_IDLE
  /\ Sketch.requestB Sketch_ready = Some LOW
  /\ Sketch.sample (Sketch.lines snap_front_back) = snap_front_back
  /\ Simulation.currentState Simulation_ready = ST_IDLE
  /\ Simulation.requestB Simulation_ready = Some LOW
  /\ Simulation.sample (Simulation.sensed sim_front_back_fall
                                          Simulation_ready)
     = mkSnapshot true false true false false true true
  /\ Sketch.currentState
       (exec (Sketch.loop (Sketch.lines snap_front_back)) Sketch_ready)
     = ST_FRONT_ENTER
  /\ Simulation.currentState
       (exec (Simulation.loop sim_front_back_fall) Simulation_ready)
     = ST_FRONT_ENTER.
Proof.
  do 6 (split; [vm_compute; reflexivity|]).
  pose proof (front_priority_tie_break
                (Sketch.lines snap_front_back) Sketch_ready false false
                sim_front_back_fall Simulation_ready true true
                eq_refl eq_refl eq_refl eq_refl eq_refl eq_refl)
    as ((H1 & _) & (H2 & _)).
  split; [exact H1 | exact H2].
Defined.

(** ** The status strip during a cycle *)

Lemma nominal_color_cases c :
  c = BLUE \/ c = ORANGE \/ c = PURPLE \/ c = YELLOW \/ c = GREEN ->
  c ∈ nominal_colors.
Proof.
  unfold nominal_colors. rewrite !elem_of_cons, elem_of_nil. tauto.
Qed.

Ltac strip_unchanged_or_nominal :=
  first
    [ left; reflexivity
    | right; eexists; split;
      [ apply nominal_color_cases
      | rewrite ?fillPixels_all; reflexivity ];
      first [ left; reflexivity
            | right; left; reflexivity
            | right; right; left; reflexivity
            | right; right; right; left; reflexivity
            | right; right; right; right; reflexivity ] ].

Lemma Sketch_indicator_cycle io m :
  if obstructed (Sketch.sample io)
  then Sketch.indicator (exec (Sketch.loop io) m)
       = replicate (numPixels (Sketch.ledStrip m)) RED
  else Sketch.indicator (exec (Sketch.loop io) m) = Sketch.indicator m
       \/ exists c, c ∈ nominal_colors
                    /\ Sketch.indicator (exec (Sketch.loop io) m)
                       = replicate (numPixels (Sketch.ledStrip m)) c.
Proof.
  destruct (obstructed (Sketch.sample io)) eqn:Hobs.
  - apply Sketch_veto_cycle. exact Hobs.
  - unfold Sketch.indicator. sketch_unfold. cbn in Hobs.
    line_cases io; try discriminate Hobs; cbn;
      destruct (Sketch.currentState m); cbn;
      strip_unchanged_or_nominal.
Qed.

Lemma Simulation_indicator_control m :
  if obstructed (Simulation.sample m)
  then Simulation.indicator (exec Simulation.control m)
       = replicate (numPixels (Simulation.ledStrip m)) RED
  else Simulation.indicator (exec Simulation.control m)
       = Simulation.indicator m
       \/ exists c, c ∈ nominal_colors
                    /\ Simulation.indicator (exec Simulation.control m)
                       = replicate (numPixels (Simulation.ledStrip m)) c.
Proof.
  destruct (obstructed (Simulation.sample m)) eqn:Hobs.
  - apply Simulation_veto_control. exact Hobs.
  - simulation_unfold. cbn in Hobs.
    elem_cases m; try discriminate Hobs; cbn;
      destruct (Simulation.currentState m); cbn;
      rewrite ?E1, ?E3, ?E5, ?E6; cbn;
      strip_unchanged_or_nominal.
Qed.

(** The colour by branch. The colour is set by the branch a cycle takes, not by
    the state it ends in.  A cycle that takes the safety branch, ending in
    [ST_SAFETY_LOCK] or in the fault-flavoured [ST_MIDDLE_OCCUPIED], shows
    red on the whole strip.  Any other cycle either leaves the strip as it
    was or shows one of blue, orange, purple, yellow and green on the whole
    strip, and red is none of these. *)
Theorem status_color_by_branch
    (io : Lines) (m : Sketch.Machine)
    (io' : Lines) (m' : Simulation.Machine) :
  (if obstructed (Sketch.sample io)
   then Sketch.indicator (exec (Sketch.loop io) m)
        = replicate (numPixels (Sketch.ledStrip m)) RED
   else Sketch.indicator (exec (Sketch.loop io) m) = Sketch.indicator m
        \/ exists c, c ∈ nominal_colors
                     /\ Sketch.indicator (exec (Sketch.loop io) m)
                        = replicate (numPixels (Sketch.ledStrip m)) c)
  /\ (if obstructed (Simulation.sample (Simulation.sensed io' m'))
      then Simulation.indicator (exec (Simulation.loop io') m')
           = replicate (numPixels (Simulation.ledStrip m')) RED
      else Simulation.indicator (exec (Simulation.loop io') m')
           = Simulation.indicator m'
           \/ exists c, c ∈ nominal_colors
                        /\ Simulation.indicator
                             (exec (Simulation.loop io') m')
                           = replicate (numPixels (Simulation.ledStrip m')) c)
  /\ RED ∉ nominal_colors.
Proof.
  split; [apply Sketch_indicator_cycle|].
  split; [|apply RED_not_nominal].
  rewrite Simulation_loop_sensed.
  destruct (Simulation_sensed_frame io' m') as (_ & _ & Hl).
  pose proof (Simulation_indicator_control (Simulation.sensed io' m')) as H.
  unfold Simulation.indicator in *. rewrite Hl in H. exact H.
Qed.



(** ** Mutual exclusion without obstructions *)

Ltac outputs_lookup :=
  repeat (rewrite lookup_insert_eq
          || rewrite lookup_insert_ne by discriminate).

Lemma Sketch_gates_of_step io m :
  obstructed (Sketch.sample io) = false ->
  (Sketch.requestA m, Sketch.requestB m) = gates_of (Sketch.currentState m) ->
  (Sketch.requestA (exec (Sketch.loop io) m),
   Sketch.requestB (exec (Sketch.loop io) m))
  = gates_of (Sketch.currentState (exec (Sketch.loop io) m)).
Proof.
  intros Hclear Hg. unfold Sketch.requestA, Sketch.requestB in *.
  sketch_unfold. cbn in Hclear.
  line_cases io; try discriminate Hclear; cbn;
    destruct (Sketch.currentState m) eqn:Hcur; cbn in *;
    rewrite ?Hcur; cbn; injection Hg as HgA HgB;
    outputs_lookup; rewrite ?HgA, ?HgB; reflexivity.
Qed.

Lemma Simulation_gates_of_control m :
  obstructed (Simulation.sample m) = false ->
  (Simulation.requestA m, Simulation.requestB m)
  = gates_of (Simulation.currentState m) ->
  (Simulation.requestA (exec Simulation.control m),
   Simulation.requestB (exec Simulation.control m))
  = gates_of (Simulation.currentState (exec Simulation.control m)).
Proof.
  intros Hclear Hg. simulation_unfold. cbn in Hclear.
  elem_cases m; try discriminate Hclear; cbn;
    destruct (Simulation.currentState m) eqn:Hcur; cbn in *;
    rewrite ?E1, ?E3, ?E5, ?E6; cbn;
    rewrite ?Hcur; cbn; injection Hg as HgA HgB;
    outputs_lookup; rewrite ?HgA, ?HgB; reflexivity.
Qed.

Lemma gates_of_not_both_open st : gates_of st <> (Some HIGH, Some HIGH).
Proof. destruct st; discriminate. Qed.

(** As long as no safety sensor has ever been active, the request outputs
    follow the sequencer state and the two gates are never commanded open
    together: the breach of mutual exclusion needs a veto. *)
Lemma Sketch_undisturbed_gates m :
  Sketch_undisturbed m ->
  (Sketch.requestA m, Sketch.requestB m) = gates_of (Sketch.currentState m).
Proof.
  induction 1 as [|io m Hm IH Hclear].
  - reflexivity.
  - apply Sketch_gates_of_step; assumption.
Qed.

Lemma Sketch_undisturbed_mutex m :
  Sketch_undisturbed m -> ~ Sketch.bothOpen m.
Proof.
  intros Hm [HA HB]. apply Sketch_undisturbed_gates in Hm.
  rewrite HA, HB in Hm. symmetry in Hm.
  exact (gates_of_not_both_open _ Hm).
Qed.

Lemma Simulation_undisturbed_gates m :
  Simulation_undisturbed m ->
  (Simulation.requestA m, Simulation.requestB m)
  = gates_of (Simulation.currentState m).
Proof.
  induction 1 as [|io m Hm IH Hclear].
  - reflexivity.
  - rewrite Simulation_loop_sensed.
    apply Simulation_gates_of_control; [exact Hclear|].
    destruct (Simulation_sensed_frame io m) as (Hs & Ho & _).
    unfold Simulation.requestA, Simulation.requestB in *.
    rewrite Hs, Ho. exact IH.
Qed.

Lemma Simulation_undisturbed_mutex m :
  Simulation_undisturbed m -> ~ Simulation.bothOpen m.
Proof.
  intros Hm [HA HB]. apply Simulation_undisturbed_gates in Hm.
  rewrite HA, HB in Hm. symmetry in Hm.
  exact (gates_of_not_both_open _ Hm).
Qed.

(** * Further properties of the sketches *)

(** ** [updateLEDs] *)

Lemma paint_uniform color s : paint color s = uniform_strip (numPixels s) color.
Proof. unfold paint, show, uniform_strip. rewrite fillPixels_all. reflexivity. Qed.

Lemma numPixels_uniform n color : numPixels (uniform_strip n color) = n.
Proof. unfold numPixels, uniform_strip. simpl. apply length_replicate. Qed.

(** X1. [updateLEDs] puts the colour on every pixel of the strip, both in the
    buffer and on the LEDs, keeps the number of pixels, and touches nothing
    else of the controller. *)
Theorem updateLEDs_paints_whole_strip
    (color : Z) (m : Sketch.Machine) (m' : Simulation.Machine) :
  (Sketch.ledStrip (exec (Sketch.updateLEDs color) m)
   = uniform_strip (numPixels (Sketch.ledStrip m)) color
   /\ numPixels (Sketch.ledStrip (exec (Sketch.updateLEDs color) m))
      = numPixels (Sketch.ledStrip m)
   /\ Sketch.outputs (exec (Sketch.updateLEDs color) m) = Sketch.outputs m
   /\ Sketch.modes (exec (Sketch.updateLEDs color) m) = Sketch.modes m
   /\ Sketch.currentState (exec (Sketch.updateLEDs color) m)
      = Sketch.currentState m)
  /\ (Simulation.ledStrip (exec (Simulation.updateLEDs color) m')
      = uniform_strip (numPixels (Simulation.ledStrip m')) color
      /\ numPixels (Simulation.ledStrip (exec (Simulation.updateLEDs color) m'))
         = numPixels (Simulation.ledStrip m')
      /\ Simulation.outputs (exec (Simulation.updateLEDs color) m')
         = Simulation.outputs m'
      /\ Simulation.modes (exec (Simulation.updateLEDs color) m')
         = Simulation.modes m'
      /\ Simulation.currentState (exec (Simulation.updateLEDs color) m')
         = Simulation.currentState m'
      /\ Simulation.b (exec (Simulation.updateLEDs color) m')
         = Simulation.b m'
      /\ Simulation.lastb (exec (Simulation.updateLEDs color) m')
         = Simulation.lastb m'
      /\ Simulation.serial (exec (Simulation.updateLEDs color) m')
         = Simulation.serial m').
Proof.
  unfold exec, Sketch.updateLEDs, Simulation.updateLEDs. cbn [snd
    Sketch.ledStrip Sketch.outputs Sketch.modes Sketch.currentState
    Simulation.ledStrip Simulation.outputs Simulation.modes
    Simulation.currentState Simulation.b Simulation.lastb Simulation.serial].
  rewrite !paint_uniform, !numPixels_uniform.
  repeat split; reflexivity.
Qed.

(** X2. Of two successive [updateLEDs] calls only the second one shows: the
    result is the one of the second call alone. *)
Theorem updateLEDs_last_wins
    (c1 c2 : Z) (m : Sketch.Machine) (m' : Simulation.Machine) :
  exec (Sketch.updateLEDs c2) (exec (Sketch.updateLEDs c1) m)
  = exec (Sketch.updateLEDs c2) m
  /\ exec (Simulation.updateLEDs c2) (exec (Simulation.updateLEDs c1) m')
     = exec (Simulation.updateLEDs c2) m'.
Proof.
  unfold exec, Sketch.updateLEDs, Simulation.updateLEDs. cbn [snd
    Sketch.ledStrip Sketch.outputs Sketch.modes Sketch.currentState
    Simulation.ledStrip Simulation.outputs Simulation.modes
    Simulation.currentState Simulation.b Simulation.lastb Simulation.serial].
  rewrite !paint_uniform, !numPixels_uniform. split; reflexivity.
Qed.

(** ** [operateGate] *)

(** X3. [operateGate] drives at most the request output of the gate it is
    called for: every other output keeps its level, and the pin modes, the
    sequencer state and the strip are untouched. *)
Theorem operateGate_touches_one_output
    (io : Lines) (gate : Z) (open : bool) (pin : Z)
    (m : Sketch.Machine) (m' : Simulation.Machine) :
  pin <> gate_pin gate ->
  (Sketch.outputs (exec (Sketch.operateGate io gate open) m) !! pin
   = Sketch.outputs m !! pin
   /\ Sketch.modes (exec (Sketch.operateGate io gate open) m)
      = Sketch.modes m
   /\ Sketch.currentState (exec (Sketch.operateGate io gate open) m)
      = Sketch.currentState m
   /\ Sketch.ledStrip (exec (Sketch.operateGate io gate open) m)
      = Sketch.ledStrip m)
  /\ (Simulation.outputs (exec (Simulation.operateGate gate open) m') !! pin
      = Simulation.outputs m' !! pin
      /\ Simulation.modes (exec (Simulation.operateGate gate open) m')
         = Simulation.modes m'
      /\ Simulation.currentState (exec (Simulation.operateGate gate open) m')
         = Simulation.currentState m'
      /\ Simulation.ledStrip (exec (Simulation.operateGate gate open) m')
         = Simulation.ledStrip m'
      /\ Simulation.b (exec (Simulation.operateGate gate open) m')
         = Simulation.b m').
Proof.
  intros Hpin. unfold gate_pin in Hpin. split.
  - destruct (Sketch_blocked io gate) eqn:Hb; unfold exec.
    + rewrite Sketch_operateGate_blocked by exact Hb.
      repeat split; reflexivity.
    + rewrite Sketch_operateGate_passes by exact Hb. cbn.
      repeat split; try reflexivity.
      apply lookup_insert_ne. congruence.
  - destruct (Simulation_blocked m' gate) eqn:Hb; unfold exec.
    + rewrite Simulation_operateGate_blocked by exact Hb.
      repeat split; reflexivity.
    + rewrite Simulation_operateGate_passes by exact Hb. cbn.
      repeat split; try reflexivity.
      apply lookup_insert_ne. congruence.
Qed.

Lemma operateGate_touches_one_output_witness :
  GATE_REQUEST_B <> gate_pin 0
  /\ Sketch.outputs
       (exec (Sketch.operateGate (Sketch.lines snap_quiet) 0 false)
             Sketch_A_open) !! GATE_REQUEST_B
     = Sketch.outputs Sketch_A_open !! GATE_REQUEST_B
  /\ Simulation.outputs
       (exec (Simulation.operateGate 0 false) Simulation_A_open)
       !! GATE_REQUEST_B
     = Simulation.outputs Simulation_A_open !! GATE_REQUEST_B.
Proof.
  assert (Hne : GATE_REQUEST_B <> gate_pin 0) by discriminate.
  split; [exact Hne|].
  pose proof (operateGate_touches_one_output
                (Sketch.lines snap_quiet) 0 false GATE_REQUEST_B
                Sketch_A_open Simulation_A_open Hne)
    as ((H1 & _) & (H2 & _)).
  split; [exact H1 | exact H2].
Defined.

(** X4. Within a cycle a later request for a gate overrides an earlier one
    for the same gate: two successive [operateGate] calls leave the machine
    as the second call alone does. *)
Theorem operateGate_last_request_wins
    (io : Lines) (gate : Z) (o1 o2 : bool)
    (m : Sketch.Machine) (m' : Simulation.Machine) :
  exec (Sketch.operateGate io gate o2) (exec (Sketch.operateGate io gate o1) m)
  = exec (Sketch.operateGate io gate o2) m
  /\ exec (Simulation.operateGate gate o2)
          (exec (Simulation.operateGate gate o1) m')
     = exec (Simulation.operateGate gate o2) m'.
Proof.
  split.
  - destruct (Sketch_blocked io gate) eqn:Hb; unfold exec.
    + rewrite !Sketch_operateGate_blocked by exact Hb. reflexivity.
    + rewrite !Sketch_operateGate_passes by exact Hb.
      unfold Sketch.digitalWrite. cbn. rewrite insert_insert_eq.
      reflexivity.
  - destruct (Simulation_blocked m' gate) eqn:Hb; unfold exec.
    + rewrite (Simulation_operateGate_blocked gate o1 m' Hb). reflexivity.
    + rewrite (Simulation_operateGate_passes gate o1 m' Hb).
      rewrite (Simulation_operateGate_passes gate o2 m' Hb).
      rewrite Simulation_operateGate_passes by exact Hb.
      unfold Simulation.digitalWrite. cbn. rewrite insert_insert_eq.
      reflexivity.
Qed.

(** ** What a cycle leaves alone *)

Lemma Simulation_control_frame m :
  Simulation.b (exec Simulation.control m) = Simulation.b m
  /\ Simulation.lastb (exec Simulation.control m) = Simulation.lastb m
  /\ Simulation.serial (exec Simulation.control m) = Simulation.serial m
  /\ Simulation.modes (exec Simulation.control m) = Simulation.modes m.
Proof.
  simulation_unfold.
  elem_cases m; cbn; destruct (Simulation.currentState m); cbn;
    repeat (progress (rewrite ?E0, ?E1, ?E2, ?E3, ?E4, ?E5, ?E6; cbn)); repeat split; reflexivity.
Qed.

Lemma Sketch_loop_other_pins io m pin :
  pin <> GATE_REQUEST_A -> pin <> GATE_REQUEST_B ->
  Sketch.outputs (exec (Sketch.loop io) m) !! pin = Sketch.outputs m !! pin
  /\ Sketch.modes (exec (Sketch.loop io) m) = Sketch.modes m.
Proof.
  intros HA HB. sketch_unfold.
  line_cases io; cbn; destruct (Sketch.currentState m); cbn;
    rewrite ?lookup_insert_ne by congruence; split; reflexivity.
Qed.

Lemma Simulation_control_other_pins m pin :
  pin <> GATE_REQUEST_A -> pin <> GATE_REQUEST_B ->
  Simulation.outputs (exec Simulation.control m) !! pin
  = Simulation.outputs m !! pin.
Proof.
  intros HA HB. simulation_unfold.
  elem_cases m; cbn; destruct (Simulation.currentState m); cbn;
    repeat (progress (rewrite ?E0, ?E1, ?E2, ?E3, ?E4, ?E5, ?E6; cbn));
    rewrite ?lookup_insert_ne by congruence; reflexivity.
Qed.

Lemma Simulation_edges_modes n i cur m :
  Simulation.modes (exec (Simulation.edges n i cur) m) = Simulation.modes m.
Proof.
  revert i m. induction n as [|n IH]; intros i m; cbn [Simulation.edges].
  - reflexivity.
  - rewrite exec_bind, IH.
    unfold Simulation.edge, exec, bind.
    destruct (eqb (Simulation.elem (Simulation.lastb m) i) HIGH
              && eqb (Simulation.elem cur i) LOW); reflexivity.
Qed.

Lemma Simulation_sensed_modes io m :
  Simulation.modes (Simulation.sensed io m) = Simulation.modes m.
Proof.
  unfold Simulation.sensed. rewrite exec_bind.
  rewrite <- (Simulation_edges_modes 7 0 (Simulation.currentb io) m).
  reflexivity.
Qed.

(** X5. A control cycle never reconfigures a pin and never drives any output
    other than the two gate request pins. *)
Theorem loop_drives_only_gate_pins
    (io : Lines) (m : Sketch.Machine)
    (io' : Lines) (m' : Simulation.Machine) (pin : Z) :
  pin <> GATE_REQUEST_A ->
  pin <> GATE_REQUEST_B ->
  Sketch.outputs (exec (Sketch.loop io) m) !! pin = Sketch.outputs m !! pin
  /\ Sketch.modes (exec (Sketch.loop io) m) = Sketch.modes m
  /\ Simulation.outputs (exec (Simulation.loop io') m') !! pin
     = Simulation.outputs m' !! pin
  /\ Simulation.modes (exec (Simulation.loop io') m') = Simulation.modes m'.
Proof.
  intros HA HB.
  destruct (Sketch_loop_other_pins io m pin HA HB) as (H1 & H2).
  split; [exact H1|]. split; [exact H2|].
  rewrite Simulation_loop_sensed.
  destruct (Simulation_control_frame (Simulation.sensed io' m'))
    as (_ & _ & _ & Hmodes).
  rewrite Hmodes, Simulation_control_other_pins by assumption.
  destruct (Simulation_sensed_frame io' m') as (_ & Ho & _).
  rewrite Ho. split; [reflexivity|]. apply Simulation_sensed_modes.
Qed.

Lemma loop_drives_only_gate_pins_witness :
  LED_DATA <> GATE_REQUEST_A
  /\ LED_DATA <> GATE_REQUEST_B
  /\ Sketch.outputs
       (exec (Sketch.loop (Sketch.lines snap_front)) Sketch_ready)
       !! LED_DATA
     = Sketch.outputs Sketch_ready !! LED_DATA
  /\ Simulation.outputs
       (exec (Simulation.loop sim_front_falls) Simulation_ready) !! LED_DATA
     = Simulation.outputs Simulation_ready !! LED_DATA.
Proof.
  assert (HA : LED_DATA <> GATE_REQUEST_A) by discriminate.
  assert (HB : LED_DATA <> GATE_REQUEST_B) by discriminate.
  split; [exact HA|]. split; [exact HB|].
  pose proof (loop_drives_only_gate_pins
                (Sketch.lines snap_front) Sketch_ready
                sim_front_falls Simulation_ready LED_DATA HA HB)
    as (H1 & _ & H2 & _).
  split; [exact H1 | exact H2].
Defined.

(** ** The edge loop of the edge-toggled sketch *)

Lemma list_insert_elem (l : list bool) (i : nat) :
  <[i := Simulation.elem l i]> l = l.
Proof.
  unfold Simulation.elem. destruct (l !! i) eqn:E; simpl.
  - apply list_insert_id. exact E.
  - apply list_insert_ge. apply lookup_ge_None. exact E.
Qed.

Lemma list_lookup_insert_fmap (l : list bool) (i : nat) (x : bool) :
  <[i := x]> l !! i = (fun _ => x) <$> (l !! i).
Proof.
  destruct (l !! i) eqn:E; simpl.
  - apply list_lookup_insert_eq. eapply lookup_lt_Some. exact E.
  - rewrite list_insert_ge by (apply lookup_ge_None; exact E). exact E.
Qed.

Lemma elem_insert_ne (l : list bool) (i j : nat) (x : bool) :
  i <> j -> Simulation.elem (<[i := x]> l) j = Simulation.elem l j.
Proof.
  intros Hne. unfold Simulation.elem.
  rewrite list_lookup_insert_ne by exact Hne. reflexivity.
Qed.

(** One iteration of the edge loop, as two array updates. *)
Lemma Simulation_edge_arrays cur i m :
  Simulation.b (exec (Simulation.edge cur i) m)
  = <[i := toggled (Simulation.elem (Simulation.lastb m) i)
                   (Simulation.elem cur i)
                   (Simulation.elem (Simulation.b m) i)]> (Simulation.b m)
  /\ Simulation.lastb (exec (Simulation.edge cur i) m)
     = <[i := Simulation.elem cur i]> (Simulation.lastb m).
Proof.
  unfold Simulation.edge, exec, bind, toggled.
  destruct (eqb (Simulation.elem (Simulation.lastb m) i) HIGH
            && eqb (Simulation.elem cur i) LOW); cbn.
  - split; reflexivity.
  - rewrite list_insert_elem. split; reflexivity.
Qed.

(** The edge loop run from index [i] for [n] iterations rewrites exactly the
    entries [i .. i+n-1] of the two arrays, each from its own old values. *)
Lemma Simulation_edges_lookup n i cur m j :
  Simulation.lastb (exec (Simulation.edges n i cur) m) !! j
  = (if decide (i <= j < i + n)%nat
     then (fun _ => Simulation.elem cur j) <$> (Simulation.lastb m !! j)
     else Simulation.lastb m !! j)
  /\ Simulation.b (exec (Simulation.edges n i cur) m) !! j
     = (if decide (i <= j < i + n)%nat
        then toggled (Simulation.elem (Simulation.lastb m) j)
                     (Simulation.elem cur j) <$> (Simulation.b m !! j)
        else Simulation.b m !! j).
Proof.
  revert i m. induction n as [|n IH]; intros i m; cbn [Simulation.edges].
  - unfold exec, ret; cbn [snd]; case_decide; [lia|]. split; reflexivity.
  - rewrite exec_bind.
    destruct (IH (S i) (exec (Simulation.edge cur i) m)) as (IHl & IHb).
    destruct (Simulation_edge_arrays cur i m) as (Hb & Hl).
    rewrite IHl, IHb, Hb, Hl. clear IHl IHb Hb Hl.
    destruct (decide (j = i)) as [->|Hne].
    + rewrite !list_lookup_insert_fmap.
      repeat case_decide; try lia. split; [reflexivity|].
      unfold Simulation.elem at 3.
      destruct (Simulation.b m !! i); reflexivity.
    + rewrite !list_lookup_insert_ne by congruence.
      rewrite elem_insert_ne by congruence.
      repeat case_decide; try lia; split; reflexivity.
Qed.

Lemma Simulation_edges_lengths n i cur m :
  length (Simulation.b (exec (Simulation.edges n i cur) m))
  = length (Simulation.b m)
  /\ length (Simulation.lastb (exec (Simulation.edges n i cur) m))
     = length (Simulation.lastb m).
Proof.
  revert i m. induction n as [|n IH]; intros i m; cbn [Simulation.edges].
  - split; reflexivity.
  - rewrite exec_bind.
    destruct (IH (S i) (exec (Simulation.edge cur i) m)) as (IHb & IHl).
    destruct (Simulation_edge_arrays cur i m) as (Hb & Hl).
    rewrite IHb, IHl, Hb, Hl, !length_insert. split; reflexivity.
Qed.

(** The two arrays after a cycle are the ones the edge loop leaves: the dump
    and the control part do not write them. *)
Lemma Simulation_loop_arrays io m :
  Simulation.b (exec (Simulation.loop io) m)
  = Simulation.b (exec (Simulation.edges 7 0 (Simulation.currentb io)) m)
  /\ Simulation.lastb (exec (Simulation.loop io) m)
     = Simulation.lastb
         (exec (Simulation.edges 7 0 (Simulation.currentb io)) m).
Proof.
  rewrite Simulation_loop_sensed.
  destruct (Simulation_control_frame (Simulation.sensed io m))
    as (Hb & Hl & _).
  rewrite Hb, Hl. unfold Simulation.sensed. rewrite exec_bind.
  split; reflexivity.
Qed.

Lemma elem_lookup (l : list bool) (j : nat) (v : bool) :
  l !! j = Some v -> Simulation.elem l j = v.
Proof. unfold Simulation.elem. intros ->. reflexivity. Qed.

Lemma Simulation_loop_elem io m j :
  (j < 7)%nat ->
  length (Simulation.b m) = 7%nat ->
  length (Simulation.lastb m) = 7%nat ->
  Simulation.elem (Simulation.b (exec (Simulation.loop io) m)) j
  = toggled (Simulation.elem (Simulation.lastb m) j)
            (Simulation.elem (Simulation.currentb io) j)
            (Simulation.elem (Simulation.b m) j)
  /\ Simulation.elem (Simulation.lastb (exec (Simulation.loop io) m)) j
     = Simulation.elem (Simulation.currentb io) j.
Proof.
  intros Hj Hb Hl.
  destruct (Simulation_loop_arrays io m) as (-> & ->).
  destruct (Simulation_edges_lookup 7 0 (Simulation.currentb io) m j)
    as (Hlast & Hbool).
  rewrite decide_True in Hlast, Hbool by lia.
  destruct (lookup_lt_is_Some_2 (Simulation.b m) j) as [v Hv]; [lia|].
  destruct (lookup_lt_is_Some_2 (Simulation.lastb m) j) as [w Hw]; [lia|].
  rewrite Hv in Hbool. rewrite Hw in Hlast.
  rewrite (elem_lookup _ j
             (toggled (Simulation.elem (Simulation.lastb m) j)
                      (Simulation.elem (Simulation.currentb io) j) v) Hbool).
  rewrite (elem_lookup _ j (Simulation.elem (Simulation.currentb io) j)
             Hlast).
  rewrite (elem_lookup _ _ _ Hv). split; reflexivity.
Qed.

Lemma Simulation_loop_lengths io m :
  length (Simulation.b (exec (Simulation.loop io) m))
  = length (Simulation.b m)
  /\ length (Simulation.lastb (exec (Simulation.loop io) m))
     = length (Simulation.lastb m).
Proof.
  destruct (Simulation_loop_arrays io m) as (-> & ->).
  apply Simulation_edges_lengths.
Qed.

(** X6. Edge detection, line by line. With the two arrays at their declared
    size of seven, after a cycle each stored boolean is the old one, flipped
    exactly when its line was [HIGH] at the previous cycle and reads [LOW]
    now, and [lastb] holds the levels just read. *)
Theorem edge_toggle_per_line
    (io : Lines) (m : Simulation.Machine) (j : nat) :
  (j < 7)%nat ->
  length (Simulation.b m) = 7%nat ->
  length (Simulation.lastb m) = 7%nat ->
  Simulation.elem (Simulation.b (exec (Simulation.loop io) m)) j
  = toggled (Simulation.elem (Simulation.lastb m) j)
            (Simulation.elem (Simulation.currentb io) j)
            (Simulation.elem (Simulation.b m) j)
  /\ Simulation.elem (Simulation.lastb (exec (Simulation.loop io) m)) j
     = Simulation.elem (Simulation.currentb io) j.
Proof. apply Simulation_loop_elem. Qed.

Lemma edge_toggle_per_line_witness :
  (0 < 7)%nat
  /\ length (Simulation.b Simulation_ready) = 7%nat
  /\ length (Simulation.lastb Simulation_ready) = 7%nat
  /\ Simulation.elem
       (Simulation.b (exec (Simulation.loop sim_front_falls)
                           Simulation_ready)) 0
     = toggled HIGH LOW HIGH.
Proof.
  assert (H0 : (0 < 7)%nat) by lia.
  split; [exact H0|]. split; [reflexivity|]. split; [reflexivity|].
  exact (proj1 (edge_toggle_per_line sim_front_falls Simulation_ready 0
                  H0 eq_refl eq_refl)).
Defined.

Lemma toggled_same c v : toggled c c v = v.
Proof. destruct c; reflexivity. Qed.

Lemma toggled_low c v : toggled LOW c v = v.
Proof. destruct c; reflexivity. Qed.

(** X7. Lines held steady do not retrigger: a second cycle with the same
    line levels changes none of the stored booleans, whatever the machine
    and whatever the levels. *)
Theorem steady_lines_do_not_retrigger (io : Lines) (m : Simulation.Machine) :
  Simulation.b (exec (Simulation.loop io) (exec (Simulation.loop io) m))
  = Simulation.b (exec (Simulation.loop io) m).
Proof.
  set (m1 := exec (Simulation.loop io) m).
  destruct (Simulation_loop_arrays io m1) as (-> & _).
  apply list_eq. intros j.
  destruct (Simulation_edges_lookup 7 0 (Simulation.currentb io) m1 j)
    as (_ & ->).
  case_decide as Hj; [|reflexivity].
  assert (Hlast : Simulation.elem (Simulation.lastb m1) j
                  = Simulation.elem (Simulation.currentb io) j
                  \/ Simulation.elem (Simulation.lastb m1) j = LOW).
  { unfold m1. destruct (Simulation_loop_arrays io m) as (_ & ->).
    destruct (Simulation_edges_lookup 7 0 (Simulation.currentb io) m j)
      as (Hl & _).
    rewrite decide_True in Hl by exact Hj.
    unfold Simulation.elem at 1 3. rewrite Hl.
    destruct (Simulation.lastb m !! j); cbn; auto. }
  destruct (Simulation.b m1 !! j) as [v|]; [|reflexivity]. cbn.
  destruct Hlast as [-> | ->];
    [rewrite toggled_same | rewrite toggled_low]; reflexivity.
Qed.

(** A pulse on a line, [HIGH] in one cycle and [LOW] in the next, flips the
    stored boolean of that line. *)
Lemma Simulation_pulse_flips hi lo m j :
  (j < 7)%nat ->
  length (Simulation.b m) = 7%nat ->
  length (Simulation.lastb m) = 7%nat ->
  Simulation.elem (Simulation.currentb hi) j = HIGH ->
  Simulation.elem (Simulation.currentb lo) j = LOW ->
  Simulation.elem
    (Simulation.b (exec (Simulation.loop lo) (exec (Simulation.loop hi) m))) j
  = negb (Simulation.elem (Simulation.b m) j).
Proof.
  intros Hj Hb Hl Hhi Hlo.
  destruct (Simulation_loop_lengths hi m) as (Hb1 & Hl1).
  rewrite Hb in Hb1. rewrite Hl in Hl1.
  destruct (Simulation_loop_elem hi m j Hj Hb Hl) as (Hv1 & Hw1).
  destruct (Simulation_loop_elem lo _ j Hj Hb1 Hl1) as (Hv2 & _).
  rewrite Hv2, Hw1, Hv1, Hhi, Hlo.
  unfold toggled. cbn.
  destruct (Simulation.elem (Simulation.lastb m) j); reflexivity.
Qed.

(** X8. In the edge-toggled sketch a pulse on an input line (the line read
    [HIGH] in one cycle and [LOW] in the next) flips the stored boolean of
    that line, and a second pulse restores it. *)
Theorem double_pulse_restores
    (hi lo : Lines) (m : Simulation.Machine) (j : nat) :
  (j < 7)%nat ->
  length (Simulation.b m) = 7%nat ->
  length (Simulation.lastb m) = 7%nat ->
  Simulation.elem (Simulation.currentb hi) j = HIGH ->
  Simulation.elem (Simulation.currentb lo) j = LOW ->
  Simulation.elem (Simulation.b (Simulation.run [hi; lo] m)) j
  = negb (Simulation.elem (Simulation.b m) j)
  /\ Simulation.elem (Simulation.b (Simulation.run [hi; lo; hi; lo] m)) j
     = Simulation.elem (Simulation.b m) j.
Proof.
  intros Hj Hb Hl Hhi Hlo. cbn [Simulation.run].
  pose proof (Simulation_pulse_flips hi lo m j Hj Hb Hl Hhi Hlo) as H1.
  split; [exact H1|].
  set (m2 := exec (Simulation.loop lo) (exec (Simulation.loop hi) m)) in *.
  assert (Hlen : length (Simulation.b m2) = 7%nat
                 /\ length (Simulation.lastb m2) = 7%nat).
  { unfold m2.
    destruct (Simulation_loop_lengths lo (exec (Simulation.loop hi) m))
      as (-> & ->).
    destruct (Simulation_loop_lengths hi m) as (-> & ->). split; assumption. }
  destruct Hlen as (Hb2 & Hl2).
  rewrite (Simulation_pulse_flips hi lo m2 j Hj Hb2 Hl2 Hhi Hlo), H1.
  apply negb_involutive.
Qed.

Lemma double_pulse_restores_witness :
  (1 < 7)%nat
  /\ length (Simulation.b Simulation_ready) = 7%nat
  /\ length (Simulation.lastb Simulation_ready) = 7%nat
  /\ Simulation.elem (Simulation.currentb sim_front_falls) 1 = HIGH
  /\ Simulation.elem (Simulation.currentb sim_safetyA_falls) 1 = LOW
  /\ Simulation.elem
       (Simulation.b
          (Simulation.run [sim_front_falls; sim_safetyA_falls;
                           sim_front_falls; sim_safetyA_falls]
                          Simulation_ready)) 1
     = Simulation.elem (Simulation.b Simulation_ready) 1.
Proof.
  assert (H1 : (1 < 7)%nat) by lia.
  split; [exact H1|].
  do 4 (split; [reflexivity|]).
  exact (proj2 (double_pulse_restores sim_front_falls sim_safetyA_falls
                  Simulation_ready 1 H1 eq_refl eq_refl eq_refl eq_refl)).
Defined.

(** X9. The two arrays keep their declared size: in every machine
    reachable from [setup], [b] and [lastb] have seven elements. *)
Theorem arrays_keep_seven_elements (m : Simulation.Machine) :
  Simulation.reachable m ->
  length (Simulation.b m) = 7%nat /\ length (Simulation.lastb m) = 7%nat.
Proof.
  induction 1 as [|io m Hm (IHb & IHl)].
  - split; reflexivity.
  - destruct (Simulation_loop_lengths io m) as (-> & ->).
    split; assumption.
Qed.

Lemma arrays_keep_seven_elements_witness :
  Simulation.reachable Simulation_A_open_obstructed
  /\ length (Simulation.b Simulation_A_open_obstructed) = 7%nat.
Proof.
  assert (Hr : Simulation.reachable Simulation_A_open_obstructed)
    by (apply Simulation_run_reachable, Simulation.reach_setup).
  split; [exact Hr|].
  exact (proj1 (arrays_keep_seven_elements _ Hr)).
Defined.

(** ** The strip over a run *)

Lemma palette_cases c :
  c = RED \/ c = BLUE \/ c = ORANGE \/ c = PURPLE \/ c = YELLOW \/ c = GREEN ->
  c ∈ palette.
Proof.
  unfold palette, nominal_colors. rewrite !elem_of_cons, elem_of_nil. tauto.
Qed.

Ltac strip_kept_or_painted :=
  first
    [ left; reflexivity
    | right; eexists; split;
      [ apply palette_cases | reflexivity ];
      first [ left; reflexivity
            | right; left; reflexivity
            | right; right; left; reflexivity
            | right; right; right; left; reflexivity
            | right; right; right; right; left; reflexivity
            | right; right; right; right; right; reflexivity ] ].

(** A cycle either leaves the strip alone or repaints all of it with one
    colour of the palette. *)
Lemma Sketch_loop_strip io m :
  Sketch.ledStrip (exec (Sketch.loop io) m) = Sketch.ledStrip m
  \/ exists c, c ∈ palette
               /\ Sketch.ledStrip (exec (Sketch.loop io) m)
                  = paint c (Sketch.ledStrip m).
Proof.
  sketch_unfold.
  destruct (digitalRead io GATE_SAFETY_A), (digitalRead io GATE_SAFETY_B),
    (digitalRead io PRESENCE_FRONT), (digitalRead io PRESENCE_MIDDLE),
    (digitalRead io PRESENCE_BACK), (digitalRead io GATE_MOVING_A),
    (digitalRead io GATE_MOVING_B);
    cbn -[paint]; destruct (Sketch.currentState m); cbn -[paint];
    strip_kept_or_painted.
Qed.

Lemma Simulation_control_strip m :
  Simulation.ledStrip (exec Simulation.control m) = Simulation.ledStrip m
  \/ exists c, c ∈ palette
               /\ Simulation.ledStrip (exec Simulation.control m)
                  = paint c (Simulation.ledStrip m).
Proof.
  simulation_unfold.
  elem_cases m; cbn -[paint]; destruct (Simulation.currentState m);
    cbn -[paint];
    repeat (progress (rewrite ?E0, ?E1, ?E2, ?E3, ?E4, ?E5, ?E6;
                      cbn -[paint]));
    strip_kept_or_painted.
Qed.

Lemma paint_of_uniform c n c0 :
  paint c (uniform_strip n c0) = uniform_strip n c.
Proof. rewrite paint_uniform, numPixels_uniform. reflexivity. Qed.

(** X10. In every machine reachable from [setup] the strip has its eight
    pixels, all holding and showing one and the same colour, and that
    colour is one of red, blue, orange, purple, yellow and green. *)
Theorem strip_shows_one_palette_colour
    (m : Sketch.Machine) (m' : Simulation.Machine) :
  Sketch.reachable m ->
  Simulation.reachable m' ->
  (exists c, c ∈ palette /\ Sketch.ledStrip m = uniform_strip 8 c)
  /\ (exists c, c ∈ palette /\ Simulation.ledStrip m' = uniform_strip 8 c).
Proof.
  intros Hm Hm'. split.
  - clear Hm'. induction Hm as [|io m Hm (c0 & Hc0 & IH)].
    + exists GREEN. split; [|reflexivity].
      apply palette_cases. tauto.
    + destruct (Sketch_loop_strip io m) as [-> | (c & Hc & ->)].
      * exists c0. split; assumption.
      * exists c. split; [exact Hc|]. rewrite IH. apply paint_of_uniform.
  - clear Hm. induction Hm' as [|io m' Hm' (c0 & Hc0 & IH)].
    + exists GREEN. split; [|reflexivity].
      apply palette_cases. tauto.
    + rewrite Simulation_loop_sensed.
      destruct (Simulation_sensed_frame io m') as (_ & _ & Hl).
      destruct (Simulation_control_strip (Simulation.sensed io m'))
        as [-> | (c & Hc & ->)]; rewrite Hl.
      * exists c0. split; assumption.
      * exists c. split; [exact Hc|]. rewrite IH. apply paint_of_uniform.
Qed.

Lemma strip_shows_one_palette_colour_witness :
  Sketch.reachable Sketch_A_open
  /\ Simulation.reachable Simulation_A_open
  /\ (exists c, c ∈ palette /\ Sketch.ledStrip Sketch_A_open = uniform_strip 8 c).
Proof.
  assert (Hr : Sketch.reachable Sketch_A_open)
    by (apply Sketch_run_reachable, Sketch.reach_setup).
  assert (Hr' : Simulation.reachable Simulation_A_open)
    by (apply Simulation_run_reachable, Simulation.reach_setup).
  split; [exact Hr|]. split; [exact Hr'|].
  exact (proj1 (strip_shows_one_palette_colour _ _ Hr Hr')).
Defined.

(** ** The sequencer as a transition table *)

Lemma Sketch_next_state io m :
  Sketch.currentState (exec (Sketch.loop io) m)
  = next_state false (Sketch.currentState m) (Sketch.sample io).
Proof.
  unfold next_state. sketch_unfold.
  line_cases io; cbn; destruct (Sketch.currentState m) eqn:Hcur; cbn;
    rewrite ?Hcur; reflexivity.
Qed.

Lemma Simulation_control_next_state m :
  Simulation.currentState (exec Simulation.control m)
  = next_state true (Simulation.currentState m) (Simulation.sample m).
Proof.
  unfold next_state. simulation_unfold.
  elem_cases m; cbn; destruct (Simulation.currentState m) eqn:Hcur; cbn;
    repeat (progress (rewrite ?E0, ?E1, ?E2, ?E3, ?E4, ?E5, ?E6, ?Hcur;
                      cbn));
    reflexivity.
Qed.

(** X11. The sequencer state is a function of the state before and of the
    snapshot alone ([next_state]), whatever the outputs and the strip hold.
    The two sketches have the same table except for the test that leaves
    [ST_BACK_EXIT]. *)
Theorem sequencer_follows_next_state
    (io : Lines) (m : Sketch.Machine)
    (io' : Lines) (m' : Simulation.Machine) :
  Sketch.currentState (exec (Sketch.loop io) m)
  = next_state false (Sketch.currentState m) (Sketch.sample io)
  /\ Simulation.currentState (exec (Simulation.loop io') m')
     = next_state true (Simulation.currentState m')
                  (Simulation.sample (Simulation.sensed io' m')).
Proof.
  split; [apply Sketch_next_state|].
  rewrite Simulation_loop_sensed, Simulation_control_next_state.
  destruct (Simulation_sensed_frame io' m') as (-> & _). reflexivity.
Qed.

Lemma next_state_safety_lock e st s :
  next_state e st s = ST_SAFETY_LOCK
  <-> obstructed s = true /\ middle s = false.
Proof.
  unfold next_state.
  destruct (obstructed s), (middle s), st, (front s), (back s),
    (movingA s), (movingB s), e; cbn; split;
    intros H; try discriminate H; try (destruct H; discriminate);
    auto.
Qed.

(** X12. A cycle ends in [ST_SAFETY_LOCK] exactly when its snapshot has a
    safety sensor active and the middle zone free; in particular the state
    never stays [ST_SAFETY_LOCK] through a cycle without obstruction. *)
Theorem safety_lock_iff_obstructed_and_middle_free
    (io : Lines) (m : Sketch.Machine)
    (io' : Lines) (m' : Simulation.Machine) :
  (Sketch.currentState (exec (Sketch.loop io) m) = ST_SAFETY_LOCK
   <-> obstructed (Sketch.sample io) = true
       /\ middle (Sketch.sample io) = false)
  /\ (Simulation.currentState (exec (Simulation.loop io') m') = ST_SAFETY_LOCK
      <-> obstructed (Simulation.sample (Simulation.sensed io' m')) = true
          /\ middle (Simulation.sample (Simulation.sensed io' m')) = false).
Proof.
  split.
  - rewrite Sketch_next_state. apply next_state_safety_lock.
  - rewrite Simulation_loop_sensed, Simulation_control_next_state.
    apply next_state_safety_lock.
Qed.

Lemma next_state_not_front_exit e st s :
  st <> ST_FRONT_EXIT -> next_state e st s <> ST_FRONT_EXIT.
Proof.
  unfold next_state. intros Hst.
  destruct (obstructed s), (middle s), st, (front s), (back s),
    (movingA s), (movingB s), e; cbn; congruence.
Qed.

Lemma Simulation_front_exit_unreachable m :
  Simulation.reachable m -> Simulation.currentState m <> ST_FRONT_EXIT.
Proof.
  induction 1 as [|io m Hm IH].
  - discriminate.
  - rewrite Simulation_loop_sensed, Simulation_control_next_state.
    apply next_state_not_front_exit.
    destruct (Simulation_sensed_frame io m) as (-> & _). exact IH.
Qed.

(** X13. [ST_FRONT_EXIT] is declared but never entered: no machine
    reachable from [setup] is in that state, in either sketch. *)
Theorem front_exit_never_entered
    (m : Sketch.Machine) (m' : Simulation.Machine) :
  Sketch.reachable m ->
  Simulation.reachable m' ->
  Sketch.currentState m <> ST_FRONT_EXIT
  /\ Simulation.currentState m' <> ST_FRONT_EXIT.
Proof.
  intros Hm Hm'. split.
  - apply Sketch_front_exit_unreachable. exact Hm.
  - apply Simulation_front_exit_unreachable. exact Hm'.
Qed.

Lemma front_exit_never_entered_witness :
  Sketch.reachable Sketch_B_open
  /\ Simulation.reachable Simulation_B_open
  /\ Sketch.currentState Sketch_B_open <> ST_FRONT_EXIT
  /\ Simulation.currentState Simulation_B_open <> ST_FRONT_EXIT.
Proof.
  assert (Hr : Sketch.reachable Sketch_B_open)
    by (apply Sketch_run_reachable, Sketch.reach_setup).
  assert (Hr' : Simulation.reachable Simulation_B_open)
    by (apply Simulation_run_reachable, Simulation.reach_setup).
  split; [exact Hr|]. split; [exact Hr'|].
  exact (front_exit_never_entered _ _ Hr Hr').
Defined.

(** ** Effects only come with transitions *)

Lemma Sketch_no_transition_no_effect io m :
  obstructed (Sketch.sample io) = false ->
  Sketch.currentState (exec (Sketch.loop io) m) = Sketch.currentState m ->
  Sketch.loop io m = (tt, m).
Proof.
  sketch_unfold. cbn.
  line_cases io; cbn; intros Hclear; try discriminate Hclear;
    destruct (Sketch.currentState m) eqn:Hcur; cbn;
    intros Hsame; try discriminate Hsame; reflexivity.
Qed.

Lemma Simulation_no_transition_no_effect m :
  obstructed (Simulation.sample m) = false ->
  Simulation.currentState (exec Simulation.control m)
  = Simulation.currentState m ->
  Simulation.control m = (tt, m).
Proof.
  simulation_unfold. cbn.
  elem_cases m; cbn; intros Hclear; try discriminate Hclear;
    destruct (Simulation.currentState m) eqn:Hcur; cbn;
    repeat (progress (rewrite ?E0, ?E1, ?E2, ?E3, ?E4, ?E5, ?E6; cbn));
    intros Hsame; try discriminate Hsame; reflexivity.
Qed.

(** X14. Outside the safety branch, effects only come with transitions: a
    cycle without obstruction that ends in the state it started in has
    changed no output and not touched the strip (in the level-sensing
    sketch it has changed nothing at all). *)
Theorem no_transition_no_effect
    (io : Lines) (m : Sketch.Machine)
    (io' : Lines) (m' : Simulation.Machine) :
  obstructed (Sketch.sample io) = false ->
  Sketch.currentState (exec (Sketch.loop io) m) = Sketch.currentState m ->
  obstructed (Simulation.sample (Simulation.sensed io' m')) = false ->
  Simulation.currentState (exec (Simulation.loop io') m')
  = Simulation.currentState m' ->
  exec (Sketch.loop io) m = m
  /\ Simulation.outputs (exec (Simulation.loop io') m')
     = Simulation.outputs m'
  /\ Simulation.ledStrip (exec (Simulation.loop io') m')
     = Simulation.ledStrip m'.
Proof.
  intros Hclear Hsame Hclear' Hsame'. split.
  - unfold exec. rewrite Sketch_no_transition_no_effect by assumption.
    reflexivity.
  - rewrite Simulation_loop_sensed in *.
    destruct (Simulation_sensed_frame io' m') as (Hs & Ho & Hl).
    rewrite <- Hs in Hsame'. unfold exec.
    rewrite Simulation_no_transition_no_effect by assumption.
    cbn [snd]. split; assumption.
Qed.

Lemma no_transition_no_effect_witness :
  obstructed (Sketch.sample (Sketch.lines snap_quiet)) = false
  /\ Sketch.currentState
       (exec (Sketch.loop (Sketch.lines snap_quiet)) Sketch_A_open)
     = Sketch.currentState Sketch_A_open
  /\ obstructed
       (Simulation.sample
          (Simulation.sensed sim_front_falls Simulation_A_open)) = false
  /\ Simulation.currentState
       (exec (Simulation.loop sim_front_falls) Simulation_A_open)
     = Simulation.currentState Simulation_A_open
  /\ exec (Sketch.loop (Sketch.lines snap_quiet)) Sketch_A_open
     = Sketch_A_open
  /\ Simulation.outputs
       (exec (Simulation.loop sim_front_falls) Simulation_A_open)
     = Simulation.outputs Simulation_A_open.
Proof.
  do 4 (split; [vm_compute; reflexivity|]).
  pose proof (no_transition_no_effect
                (Sketch.lines snap_quiet) Sketch_A_open
                sim_front_falls Simulation_A_open
                eq_refl eq_refl eq_refl eq_refl) as (H1 & H2 & _).
  split; [exact H1 | exact H2].
Defined.

(** ** States that hold *)

Lemma Sketch_run_fixed ios m :
  Forall (fun io => Sketch.loop io m = (tt, m)) ios ->
  Sketch.run ios m = m.
Proof.
  induction 1 as [|io rest Hio _ IH]; cbn [Sketch.run].
  - reflexivity.
  - unfold exec. rewrite Hio. exact IH.
Qed.

Lemma next_state_idle_holds e s :
  outer_zones_free s -> next_state e ST_IDLE s = ST_IDLE.
Proof.
  intros (Ho & Hf & Hb). unfold next_state. rewrite Ho, Hf, Hb. reflexivity.
Qed.

(** X15. Idle holds: in [ST_IDLE], cycles whose snapshots have no safety
    sensor active and both outer zones free change nothing, however many of
    them follow one another and whatever the middle zone and the motion
    inputs show.  (In the edge-toggled sketch, where every cycle prints
    and records the line levels, the state, the outputs and the strip are
    unchanged.) *)
Theorem idle_holds_while_outer_zones_free
    (ios : list Lines) (m : Sketch.Machine)
    (io' : Lines) (m' : Simulation.Machine) :
  Sketch.currentState m = ST_IDLE ->
  Forall (fun io => outer_zones_free (Sketch.sample io)) ios ->
  Simulation.currentState m' = ST_IDLE ->
  outer_zones_free (Simulation.sample (Simulation.sensed io' m')) ->
  Sketch.run ios m = m
  /\ Simulation.currentState (exec (Simulation.loop io') m') = ST_IDLE
  /\ Simulation.outputs (exec (Simulation.loop io') m')
     = Simulation.outputs m'
  /\ Simulation.ledStrip (exec (Simulation.loop io') m')
     = Simulation.ledStrip m'.
Proof.
  intros Hst Hios Hst' Hfree'. split.
  - apply Sketch_run_fixed. eapply Forall_impl; [exact Hios|].
    intros io Hfree. cbn beta in *.
    apply Sketch_no_transition_no_effect; [apply Hfree|].
    rewrite Sketch_next_state, Hst. apply next_state_idle_holds. exact Hfree.
  - rewrite Simulation_loop_sensed.
    destruct (Simulation_sensed_frame io' m') as (Hs & Ho & Hl).
    assert (Hnext : Simulation.currentState
                      (exec Simulation.control (Simulation.sensed io' m'))
                    = Simulation.currentState (Simulation.sensed io' m')).
    { rewrite Simulation_control_next_state, Hs, Hst'.
      apply next_state_idle_holds. exact Hfree'. }
    unfold exec at 1 2 3.
    rewrite Simulation_no_transition_no_effect;
      [|apply Hfree'|exact Hnext].
    cbn [snd]. rewrite Hs, Ho, Hl. repeat split; assumption.
Qed.

Lemma idle_holds_while_outer_zones_free_witness :
  Sketch.currentState Sketch_ready = ST_IDLE
  /\ Forall (fun io => outer_zones_free (Sketch.sample io))
            [Sketch.lines snap_quiet; Sketch.lines snap_middle]
  /\ Simulation.currentState Simulation_ready = ST_IDLE
  /\ outer_zones_free
       (Simulation.sample
          (Simulation.sensed (Simulation.lines (replicate 7 HIGH))
                             Simulation_ready))
  /\ Sketch.run [Sketch.lines snap_quiet; Sketch.lines snap_middle]
                Sketch_ready = Sketch_ready.
Proof.
  assert (Hios : Forall (fun io => outer_zones_free (Sketch.sample io))
                        [Sketch.lines snap_quiet; Sketch.lines snap_middle])
    by (repeat constructor).
  assert (Hfree : outer_zones_free
                    (Simulation.sample
                       (Simulation.sensed (Simulation.lines (replicate 7 HIGH))
                                          Simulation_ready)))
    by (repeat constructor).
  split; [reflexivity|]. split; [exact Hios|].
  split; [reflexivity|]. split; [exact Hfree|].
  exact (proj1 (idle_holds_while_outer_zones_free
                  [Sketch.lines snap_quiet; Sketch.lines snap_middle]
                  Sketch_ready
                  (Simulation.lines (replicate 7 HIGH)) Simulation_ready
                  eq_refl Hios eq_refl Hfree)).
Defined.

Lemma next_state_back_enter_holds e s :
  obstructed s = false -> next_state e ST_BACK_ENTER s = ST_BACK_ENTER.
Proof. intros Ho. unfold next_state. rewrite Ho. reflexivity. Qed.

(** X16. [ST_BACK_ENTER] is a trap: once a back entry has been started,
    only a safety veto ends it.  Any number of cycles without obstruction
    leave the level-sensing sketch exactly as it is, whatever the zones and
    the motion inputs show, and a cycle without obstruction leaves the
    state, the outputs and the strip of the edge-toggled sketch as they
    are. *)
Theorem back_enter_only_left_by_veto
    (ios : list Lines) (m : Sketch.Machine)
    (io' : Lines) (m' : Simulation.Machine) :
  Sketch.currentState m = ST_BACK_ENTER ->
  Forall (fun io => obstructed (Sketch.sample io) = false) ios ->
  Simulation.currentState m' = ST_BACK_ENTER ->
  obstructed (Simulation.sample (Simulation.sensed io' m')) = false ->
  Sketch.run ios m = m
  /\ Simulation.currentState (exec (Simulation.loop io') m') = ST_BACK_ENTER
  /\ Simulation.outputs (exec (Simulation.loop io') m')
     = Simulation.outputs m'
  /\ Simulation.ledStrip (exec (Simulation.loop io') m')
     = Simulation.ledStrip m'.
Proof.
  intros Hst Hios Hst' Hclear'. split.
  - apply Sketch_run_fixed. eapply Forall_impl; [exact Hios|].
    intros io Hclear. cbn beta in *.
    apply Sketch_mirror_states_stuck; [left; exact Hst | exact Hclear].
  - rewrite Simulation_loop_sensed.
    destruct (Simulation_sensed_frame io' m') as (Hs & Ho & Hl).
    assert (Hnext : Simulation.currentState
                      (exec Simulation.control (Simulation.sensed io' m'))
                    = Simulation.currentState (Simulation.sensed io' m')).
    { rewrite Simulation_control_next_state, Hs, Hst'.
      apply next_state_back_enter_holds. exact Hclear'. }
    unfold exec at 1 2 3.
    rewrite Simulation_no_transition_no_effect;
      [|exact Hclear'|exact Hnext].
    cbn [snd]. rewrite Hs, Ho, Hl. repeat split; assumption.
Qed.

Lemma back_enter_only_left_by_veto_witness :
  Sketch.currentState Sketch_B_open = ST_BACK_ENTER
  /\ Forall (fun io => obstructed (Sketch.sample io) = false)
            [Sketch.lines snap_middle; Sketch.lines snap_front;
             Sketch.lines snap_quiet]
  /\ Simulation.currentState Simulation_B_open = ST_BACK_ENTER
  /\ obstructed
       (Simulation.sample
          (Simulation.sensed sim_back_middle_fall Simulation_B_open)) = false
  /\ Sketch.run [Sketch.lines snap_middle; Sketch.lines snap_front;
                 Sketch.lines snap_quiet] Sketch_B_open
     = Sketch_B_open
  /\ Simulation.outputs
       (exec (Simulation.loop sim_back_middle_fall) Simulation_B_open)
     = Simulation.outputs Simulation_B_open.
Proof.
  assert (Hios : Forall (fun io => obstructed (Sketch.sample io) = false)
                        [Sketch.lines snap_middle; Sketch.lines snap_front;
                         Sketch.lines snap_quiet])
    by (repeat constructor).
  split; [reflexivity|]. split; [exact Hios|].
  split; [reflexivity|]. split; [reflexivity|].
  pose proof (back_enter_only_left_by_veto
                [Sketch.lines snap_middle; Sketch.lines snap_front;
                 Sketch.lines snap_quiet] Sketch_B_open
                sim_back_middle_fall Simulation_B_open
                eq_refl Hios eq_refl eq_refl) as (H1 & _ & H2 & _).
  split; [exact H1 | exact H2].
Defined.

(** ** The two sketches side by side *)

Lemma eqb_LOW x : eqb x LOW = negb x.
Proof. destruct x; reflexivity. Qed.

Lemma eqb_HIGH x : eqb x HIGH = x.
Proof. destruct x; reflexivity. Qed.

Lemma negb_eq_inv a b : negb a = negb b -> a = b.
Proof. destruct a, b; cbn; congruence. Qed.

Lemma agree_control io m m1 :
  agree m m1 ->
  Sketch.sample io = Simulation.sample m1 ->
  Sketch.currentState m <> ST_BACK_EXIT ->
  agree (exec (Sketch.loop io) m) (exec Simulation.control m1).
Proof.
  intros (Hs & Ho & Hl) Hsnap Hne.
  unfold Sketch.sample, Simulation.sample in Hsnap.
  injection Hsnap as HF HM HB HSA HSB HMA HMB.
  rewrite eqb_LOW in HF, HM, HB, HSA, HSB. rewrite eqb_HIGH in HMA, HMB.
  apply negb_eq_inv in HF, HM, HB, HSA, HSB.
  unfold agree. sketch_unfold. simulation_unfold.
  rewrite !eqb_LOW, !eqb_HIGH, HF, HM, HB, HSA, HSB, HMA, HMB.
  clear HF HM HB HSA HSB HMA HMB.
  elem_cases m1; cbn; destruct (Sketch.currentState m) eqn:Hcur;
    try congruence; cbn;
    repeat (progress (rewrite ?E0, ?E1, ?E2, ?E3, ?E4, ?E5, ?E6, <- ?Hs;
                      cbn));
    rewrite ?Hcur, <- ?Ho, <- ?Hl; repeat split; reflexivity.
Qed.

(** X17. The two sketches are the same controller up to the exit test of
    [ST_BACK_EXIT]: started with the same sequencer state, output levels
    and strip, in any state but [ST_BACK_EXIT], and seeing the same
    snapshot, they end the cycle with the same sequencer state, output
    levels and strip. *)
Theorem sketches_agree_outside_back_exit
    (io : Lines) (m : Sketch.Machine)
    (io' : Lines) (m' : Simulation.Machine) :
  agree m m' ->
  Sketch.sample io = Simulation.sample (Simulation.sensed io' m') ->
  Sketch.currentState m <> ST_BACK_EXIT ->
  agree (exec (Sketch.loop io) m) (exec (Simulation.loop io') m').
Proof.
  intros (Hs & Ho & Hl) Hsnap Hne.
  rewrite Simulation_loop_sensed. apply agree_control; [|exact Hsnap|exact Hne].
  destruct (Simulation_sensed_frame io' m') as (Hs' & Ho' & Hl').
  unfold agree. rewrite Hs', Ho', Hl'. repeat split; assumption.
Qed.

Lemma sketches_agree_outside_back_exit_witness :
  agree Sketch_ready Simulation_ready
  /\ Sketch.sample (Sketch.lines snap_front_back)
     = Simulation.sample
         (Simulation.sensed
            (Simulation.lines [LOW; HIGH; HIGH; HIGH; LOW; LOW; LOW])
            Simulation_ready)
  /\ Sketch.currentState Sketch_ready <> ST_BACK_EXIT
  /\ agree (exec (Sketch.loop (Sketch.lines snap_front_back)) Sketch_ready)
           (exec (Simulation.loop
                    (Simulation.lines [LOW; HIGH; HIGH; HIGH; LOW; LOW; LOW]))
                 Simulation_ready).
Proof.
  assert (Hag : agree Sketch_ready Simulation_ready)
    by (repeat split; vm_compute; reflexivity).
  assert (Hne : Sketch.currentState Sketch_ready <> ST_BACK_EXIT)
    by discriminate.
  split; [exact Hag|]. split; [reflexivity|]. split; [exact Hne|].
  exact (sketches_agree_outside_back_exit
           (Sketch.lines snap_front_back) Sketch_ready
           (Simulation.lines [LOW; HIGH; HIGH; HIGH; LOW; LOW; LOW])
           Simulation_ready Hag eq_refl Hne).
Defined.

Lemma Sketch_back_exit_step io m :
  Sketch.currentState m = ST_BACK_EXIT ->
  obstructed (Sketch.sample io) = false ->
  movingB (Sketch.sample io) = false ->
  Sketch.currentState (exec (Sketch.loop io) m)
  = (if back (Sketch.sample io) then ST_BACK_EXIT else ST_IDLE)
  /\ Sketch.requestB (exec (Sketch.loop io) m)
     = (if back (Sketch.sample io) then Sketch.requestB m else Some LOW).
Proof.
  intros Hst Hclear HmB. unfold Sketch.requestB. sketch_unfold.
  cbn in Hclear, HmB. rewrite Hclear. cbn.
  apply orb_false_iff in Hclear as [HA HB]. rewrite Hst, HB.
  destruct (digitalRead io GATE_MOVING_B); [discriminate HmB|].
  destruct (digitalRead io PRESENCE_BACK); cbn; rewrite ?Hst.
  - split; [reflexivity|]. apply lookup_insert_eq.
  - split; reflexivity.
Qed.

Lemma Simulation_back_exit_control m :
  Simulation.currentState m = ST_BACK_EXIT ->
  obstructed (Simulation.sample m) = false ->
  movingB (Simulation.sample m) = false ->
  Simulation.currentState (exec Simulation.control m)
  = (if back (Simulation.sample m) then ST_IDLE else ST_BACK_EXIT)
  /\ Simulation.requestB (exec Simulation.control m)
     = (if back (Simulation.sample m) then Some LOW
        else Simulation.requestB m).
Proof.
  intros Hst Hclear HmB. simulation_unfold. cbn in Hclear, HmB.
  apply orb_false_iff in Hclear as [HA HB].
  apply negb_false_iff in HA, HB. cbn. rewrite HA, HB, Hst, HmB. cbn.
  destruct (Simulation.elem (Simulation.b m) 4); cbn;
    rewrite ?HB, ?Hst; cbn.
  - split; reflexivity.
  - split; [reflexivity|]. apply lookup_insert_eq.
Qed.

(** X18. The exit tests of [ST_BACK_EXIT] are opposite in the two sketches.
    On one and the same snapshot without obstruction and with gate B not
    moving, the level-sensing sketch closes gate B and returns to [ST_IDLE]
    when the back zone is free and waits when it is occupied; the
    edge-toggled sketch closes gate B and returns to [ST_IDLE] when the back
    zone is occupied and waits when it is free. *)
Theorem back_exit_tests_are_opposite
    (io : Lines) (m : Sketch.Machine)
    (io' : Lines) (m' : Simulation.Machine) :
  Sketch.currentState m = ST_BACK_EXIT ->
  Simulation.currentState m' = ST_BACK_EXIT ->
  Simulation.sample (Simulation.sensed io' m') = Sketch.sample io ->
  obstructed (Sketch.sample io) = false ->
  movingB (Sketch.sample io) = false ->
  Sketch.currentState (exec (Sketch.loop io) m)
  = (if back (Sketch.sample io) then ST_BACK_EXIT else ST_IDLE)
  /\ Sketch.requestB (exec (Sketch.loop io) m)
     = (if back (Sketch.sample io) then Sketch.requestB m else Some LOW)
  /\ Simulation.currentState (exec (Simulation.loop io') m')
     = (if back (Sketch.sample io) then ST_IDLE else ST_BACK_EXIT)
  /\ Simulation.requestB (exec (Simulation.loop io') m')
     = (if back (Sketch.sample io) then Some LOW
        else Simulation.requestB m').
Proof.
  intros Hst Hst' Hsame Hclear HmB.
  destruct (Sketch_back_exit_step io m Hst Hclear HmB) as (H1 & H2).
  split; [exact H1|]. split; [exact H2|].
  rewrite Simulation_loop_sensed.
  destruct (Simulation_sensed_frame io' m') as (Hs & Ho & _).
  rewrite <- Hsame in *. rewrite <- Hs in Hst'.
  destruct (Simulation_back_exit_control _ Hst' Hclear HmB) as (H3 & H4).
  split; [exact H3|]. rewrite H4.
  unfold Simulation.requestB. rewrite Ho. reflexivity.
Qed.

(** ** The safety branch, in general *)

(** X19. What a cycle does when its snapshot has a safety sensor active,
    whatever the state before: the state becomes [ST_MIDDLE_OCCUPIED] when
    the middle zone is occupied and [ST_SAFETY_LOCK] otherwise (never
    [ST_IDLE]), the strip turns red, each gate whose own safety sensor is
    clear is driven closed, and the request output of a gate whose own
    safety sensor is active keeps the level it had. *)
Theorem veto_cycle_effect
    (io : Lines) (m : Sketch.Machine)
    (io' : Lines) (m' : Simulation.Machine) :
  obstructed (Sketch.sample io) = true ->
  obstructed (Simulation.sample (Simulation.sensed io' m')) = true ->
  (Sketch.currentState (exec (Sketch.loop io) m)
   = (if middle (Sketch.sample io)
      then ST_MIDDLE_OCCUPIED else ST_SAFETY_LOCK)
   /\ Sketch.currentState (exec (Sketch.loop io) m) <> ST_IDLE
   /\ Sketch.indicator (exec (Sketch.loop io) m)
      = replicate (numPixels (Sketch.ledStrip m)) RED
   /\ Sketch.requestA (exec (Sketch.loop io) m)
      = (if safetyA (Sketch.sample io) then Sketch.requestA m else Some LOW)
   /\ Sketch.requestB (exec (Sketch.loop io) m)
      = (if safetyB (Sketch.sample io) then Sketch.requestB m else Some LOW))
  /\ (Simulation.currentState (exec (Simulation.loop io') m')
      = (if middle (Simulation.sample (Simulation.sensed io' m'))
         then ST_MIDDLE_OCCUPIED else ST_SAFETY_LOCK)
      /\ Simulation.currentState (exec (Simulation.loop io') m') <> ST_IDLE
      /\ Simulation.indicator (exec (Simulation.loop io') m')
         = replicate (numPixels (Simulation.ledStrip m')) RED
      /\ Simulation.requestA (exec (Simulation.loop io') m')
         = (if safetyA (Simulation.sample (Simulation.sensed io' m'))
            then Simulation.requestA m' else Some LOW)
      /\ Simulation.requestB (exec (Simulation.loop io') m')
         = (if safetyB (Simulation.sample (Simulation.sensed io' m'))
            then Simulation.requestB m' else Some LOW)).
Proof.
  intros Hobs Hobs'. split.
  - destruct (Sketch_veto_cycle io m Hobs) as (Hst & Hled & HA & HB).
    split; [exact Hst|]. split; [|repeat split; assumption].
    rewrite Hst. destruct (middle (Sketch.sample io)); discriminate.
  - rewrite Simulation_loop_sensed.
    destruct (Simulation_veto_control _ Hobs') as (Hst & Hled & HA & HB).
    destruct (Simulation_sensed_frame io' m') as (_ & Ho & Hl).
    unfold Simulation.requestA, Simulation.requestB in *.
    rewrite Ho in HA, HB. rewrite Hl in Hled.
    split; [exact Hst|]. split; [|repeat split; assumption].
    rewrite Hst.
    destruct (middle (Simulation.sample (Simulation.sensed io' m')));
      discriminate.
Qed.

Lemma veto_cycle_effect_witness :
  obstructed (Sketch.sample (Sketch.lines snap_obstructedB)) = true
  /\ obstructed
       (Simulation.sample
          (Simulation.sensed sim_safetyA_falls Simulation_A_open)) = true
  /\ Sketch.currentState
       (exec (Sketch.loop (Sketch.lines snap_obstructedB)) Sketch_A_open)
     = ST_SAFETY_LOCK
  /\ Sketch.requestA
       (exec (Sketch.loop (Sketch.lines snap_obstructedB)) Sketch_A_open)
     = Some LOW
  /\ Simulation.currentState
       (exec (Simulation.loop sim_safetyA_falls) Simulation_A_open)
     = ST_SAFETY_LOCK.
Proof.
  split; [reflexivity|]. split; [reflexivity|].
  pose proof (veto_cycle_effect
                (Sketch.lines snap_obstructedB) Sketch_A_open
                sim_safetyA_falls Simulation_A_open eq_refl eq_refl)
    as ((H1 & _ & _ & H2 & _) & (H3 & _)).
  split; [exact H1|]. split; [exact H2 | exact H3].
Defined.

(** ** Mutual exclusion while no safety sensor is active *)

(** X20. As long as no safety sensor has been active since [setup], the
    request outputs are determined by the sequencer state ([gates_of]) and
    the two gates are never commanded open together. *)
Theorem undisturbed_mutual_exclusion
    (m : Sketch.Machine) (m' : Simulation.Machine) :
  Sketch_undisturbed m ->
  Simulation_undisturbed m' ->
  ((Sketch.requestA m, Sketch.requestB m)
   = gates_of (Sketch.currentState m)
   /\ ~ Sketch.bothOpen m)
  /\ ((Simulation.requestA m', Simulation.requestB m')
      = gates_of (Simulation.currentState m')
      /\ ~ Simulation.bothOpen m').
Proof.
  intros Hm Hm'. repeat split.
  - apply Sketch_undisturbed_gates. exact Hm.
  - apply Sketch_undisturbed_mutex. exact Hm.
  - apply Simulation_undisturbed_gates. exact Hm'.
  - apply Simulation_undisturbed_mutex. exact Hm'.
Qed.

Lemma undisturbed_mutual_exclusion_witness :
  Sketch_undisturbed Sketch_in_chamber
  /\ Simulation_undisturbed Simulation_in_chamber
  /\ (Sketch.requestA Sketch_in_chamber, Sketch.requestB Sketch_in_chamber)
     = gates_of (Sketch.currentState Sketch_in_chamber)
  /\ (Simulation.requestA Simulation_in_chamber,
      Simulation.requestB Simulation_in_chamber)
     = gates_of (Simulation.currentState Simulation_in_chamber).
Proof.
  assert (Hu : Sketch_undisturbed Sketch_in_chamber).
  { apply (Sketch_undisturbed_loop (Sketch.lines snap_front_middle));
      [|reflexivity].
    apply (Sketch_undisturbed_loop (Sketch.lines snap_front));
      [|reflexivity].
    apply Sketch_undisturbed_setup. }
  assert (Hu' : Simulation_undisturbed Simulation_in_chamber).
  { apply (Simulation_undisturbed_loop sim_middle_falls); [|reflexivity].
    apply (Simulation_undisturbed_loop sim_front_moving_fall);
      [|reflexivity].
    apply Simulation_undisturbed_setup. }
  split; [exact Hu|]. split; [exact Hu'|].
  pose proof (undisturbed_mutual_exclusion _ _ Hu Hu') as ((H1 & _) & (H2 & _)).
  split; [exact H1 | exact H2].
Defined.

Lemma back_exit_tests_are_opposite_witness :
  Sketch.currentState Sketch_B_exiting = ST_BACK_EXIT
  /\ Simulation.currentState Simulation_B_exiting = ST_BACK_EXIT
  /\ Simulation.sample
       (Simulation.sensed sim_middle_falls Simulation_B_exiting)
     = Sketch.sample (Sketch.lines snap_exit_back_free)
  /\ obstructed (Sketch.sample (Sketch.lines snap_exit_back_free)) = false
  /\ movingB (Sketch.sample (Sketch.lines snap_exit_back_free)) = false
  /\ Sketch.currentState
       (exec (Sketch.loop (Sketch.lines snap_exit_back_free))
             Sketch_B_exiting) = ST_IDLE
  /\ Simulation.currentState
       (exec (Simulation.loop sim_middle_falls) Simulation_B_exiting)
     = ST_BACK_EXIT.
Proof.
  do 5 (split; [vm_compute; reflexivity|]).
  pose proof (back_exit_tests_are_opposite
                (Sketch.lines snap_exit_back_free) Sketch_B_exiting
                sim_middle_falls Simulation_B_exiting
                eq_refl eq_refl eq_refl eq_refl eq_refl)
    as (H1 & _ & H2 & _).
  split; [exact H1 | exact H2].
Defined.

(** ** The gates at idle *)

Lemma Sketch_idle_gates io m :
  Sketch.currentState m = ST_IDLE ->
  obstructed (Sketch.sample io) = false ->
  Sketch.requestA (exec (Sketch.loop io) m)
  = (if front (Sketch.sample io)
        && (back (Sketch.sample io) || negb (middle (Sketch.sample io)))
     then Some HIGH else Sketch.requestA m)
  /\ Sketch.requestB (exec (Sketch.loop io) m)
     = (if back (Sketch.sample io) && negb (middle (Sketch.sample io))
           && negb (front (Sketch.sample io))
        then Some HIGH else Sketch.requestB m).
Proof.
  intros Hst Hclear. unfold Sketch.requestA, Sketch.requestB.
  sketch_unfold. cbn in Hclear. rewrite Hclear.
  apply orb_false_iff in Hclear as [HA HB]. cbn. rewrite Hst, HA, HB.
  destruct (digitalRead io PRESENCE_FRONT), (digitalRead io PRESENCE_MIDDLE),
    (digitalRead io PRESENCE_BACK); cbn;
    outputs_lookup; split; reflexivity.
Qed.

Lemma Simulation_idle_gates_control m :
  Simulation.currentState m = ST_IDLE ->
  obstructed (Simulation.sample m) = false ->
  Simulation.requestA (exec Simulation.control m)
  = (if front (Simulation.sample m)
        && (back (Simulation.sample m)
            || negb (middle (Simulation.sample m)))
     then Some HIGH else Simulation.requestA m)
  /\ Simulation.requestB (exec Simulation.control m)
     = (if back (Simulation.sample m) && negb (middle (Simulation.sample m))
           && negb (front (Simulation.sample m))
        then Some HIGH else Simulation.requestB m).
Proof.
  intros Hst Hclear. simulation_unfold. cbn in Hclear.
  apply orb_false_iff in Hclear as [HA HB].
  apply negb_false_iff in HA, HB. cbn. rewrite HA, HB, Hst. cbn.
  destruct (Simulation.elem (Simulation.b m) 0),
    (Simulation.elem (Simulation.b m) 2),
    (Simulation.elem (Simulation.b m) 4); cbn;
    rewrite ?HA, ?HB; cbn; outputs_lookup; split; reflexivity.
Qed.

(** X21. Which gate a cycle opens at idle. In [ST_IDLE] with no safety
    sensor active, gate A is driven open exactly when the front zone is
    occupied and either the back zone is occupied too or the middle zone is
    free (so a front/back conflict opens gate A even with the middle zone
    occupied); gate B is driven open exactly when the back zone alone is
    occupied; a gate that is not opened keeps its level.  The two sketches
    test the three cases in different orders and decide alike. *)
Theorem idle_gate_decision
    (io : Lines) (m : Sketch.Machine)
    (io' : Lines) (m' : Simulation.Machine) :
  Sketch.currentState m = ST_IDLE ->
  obstructed (Sketch.sample io) = false ->
  Simulation.currentState m' = ST_IDLE ->
  obstructed (Simulation.sample (Simulation.sensed io' m')) = false ->
  (Sketch.requestA (exec (Sketch.loop io) m)
   = (if front (Sketch.sample io)
         && (back (Sketch.sample io) || negb (middle (Sketch.sample io)))
      then Some HIGH else Sketch.requestA m)
   /\ Sketch.requestB (exec (Sketch.loop io) m)
      = (if back (Sketch.sample io) && negb (middle (Sketch.sample io))
            && negb (front (Sketch.sample io))
         then Some HIGH else Sketch.requestB m))
  /\ (Simulation.requestA (exec (Simulation.loop io') m')
      = (if front (Simulation.sample (Simulation.sensed io' m'))
            && (back (Simulation.sample (Simulation.sensed io' m'))
                || negb (middle (Simulation.sample
                                   (Simulation.sensed io' m'))))
         then Some HIGH else Simulation.requestA m')
      /\ Simulation.requestB (exec (Simulation.loop io') m')
         = (if back (Simulation.sample (Simulation.sensed io' m'))
               && negb (middle (Simulation.sample
                                  (Simulation.sensed io' m')))
               && negb (front (Simulation.sample
                                 (Simulation.sensed io' m')))
            then Some HIGH else Simulation.requestB m')).
Proof.
  intros Hst Hclear Hst' Hclear'. split.
  - apply Sketch_idle_gates; assumption.
  - rewrite Simulation_loop_sensed.
    destruct (Simulation_sensed_frame io' m') as (Hs & Ho & _).
    rewrite <- Hs in Hst'.
    destruct (Simulation_idle_gates_control _ Hst' Hclear') as (HA & HB).
    unfold Simulation.requestA, Simulation.requestB in *.
    rewrite Ho in HA, HB. split; assumption.
Qed.

Lemma idle_gate_decision_witness :
  Sketch.currentState Sketch_ready = ST_IDLE
  /\ obstructed
       (Sketch.sample
          (Sketch.lines (mkSnapshot true true true false false false false)))
     = false
  /\ Simulation.currentState Simulation_ready = ST_IDLE
  /\ obstructed
       (Simulation.sample
          (Simulation.sensed sim_back_falls Simulation_ready)) = false
  /\ Sketch.requestA
       (exec (Sketch.loop
                (Sketch.lines
                   (mkSnapshot true true true false false false false)))
             Sketch_ready) = Some HIGH
  /\ Simulation.requestB
       (exec (Simulation.loop sim_back_falls) Simulation_ready) = Some HIGH.
Proof.
  do 4 (split; [reflexivity|]).
  pose proof (idle_gate_decision
                (Sketch.lines
                   (mkSnapshot true true true false false false false))
                Sketch_ready sim_back_falls Simulation_ready
                eq_refl eq_refl eq_refl eq_refl)
    as ((H1 & _) & (_ & H2)).
  split; [exact H1 | exact H2].
Defined.

(** ** The diagnostic dump *)

Lemma string_append_assoc (s1 s2 s3 : string) :
  ((s1 ++ s2) ++ s3 = s1 ++ (s2 ++ s3))%string.
Proof.
  induction s1 as [|c s1 IH]; [reflexivity|].
  change (String c ((s1 ++ s2) ++ s3) = String c (s1 ++ (s2 ++ s3)))%string.
  rewrite IH. reflexivity.
Qed.

Lemma Simulation_edges_serial n i cur m :
  Simulation.serial (exec (Simulation.edges n i cur) m) = Simulation.serial m.
Proof.
  revert i m. induction n as [|n IH]; intros i m; cbn [Simulation.edges].
  - reflexivity.
  - rewrite exec_bind, IH.
    unfold Simulation.edge, exec, bind.
    destruct (eqb (Simulation.elem (Simulation.lastb m) i) HIGH
              && eqb (Simulation.elem cur i) LOW); reflexivity.
Qed.

Lemma Simulation_report_effect label i m :
  Simulation.serial (exec (Simulation.report label i) m)
  = (Simulation.serial m
     ++ report_text label (Simulation.elem (Simulation.b m) i))%string
  /\ Simulation.b (exec (Simulation.report label i) m) = Simulation.b m.
Proof.
  unfold Simulation.report, Simulation.Serial_print_bool,
    Simulation.Serial_print, exec, bind, report_text.
  cbn [snd Simulation.serial Simulation.b].
  rewrite !string_append_assoc. split; reflexivity.
Qed.

Lemma exec_seq {S A B : Type} (c : Cmd S A) (k : Cmd S B) (s : S) :
  exec (c >> k) s = exec k (exec c s).
Proof. apply exec_bind. Qed.

Lemma Simulation_dump_serial m :
  Simulation.serial (exec Simulation.dump m)
  = (Simulation.serial m ++ dump_text (Simulation.b m))%string.
Proof.
  unfold Simulation.dump. rewrite !exec_seq.
  unfold Simulation.Serial_print at 1. unfold exec at 1. cbn [snd Simulation.serial].
  repeat (rewrite (proj1 (Simulation_report_effect _ _ _))).
  repeat (rewrite (proj2 (Simulation_report_effect _ _ _))).
  unfold dump_text. rewrite !string_append_assoc. reflexivity.
Qed.

Lemma string_length_append (s1 s2 : string) :
  String.length (s1 ++ s2) = (String.length s1 + String.length s2)%nat.
Proof.
  induction s1 as [|c s1 IH]; [reflexivity|].
  change (S (String.length (s1 ++ s2))
          = S (String.length s1 + String.length s2))%nat.
  rewrite IH. reflexivity.
Qed.

Lemma report_text_length label v :
  String.length (report_text label v) = (String.length label + 2)%nat.
Proof.
  unfold report_text. rewrite string_length_append.
  destruct v; reflexivity.
Qed.

Lemma dump_text_length bs : String.length (dump_text bs) = 123%nat.
Proof.
  unfold dump_text.
  rewrite !string_length_append, !report_text_length. reflexivity.
Qed.

(** X22. The diagnostic log is append-only. A control cycle appends exactly
    one dump, the seven labelled booleans as they stand after this cycle's
    edge detection, in the order front, safety A, middle, safety B, back,
    moving A, moving B, and nothing else: the safety branch and the
    sequencer print nothing.  Every dump is 123 characters long. *)
Theorem loop_appends_one_dump (io : Lines) (m : Simulation.Machine) :
  Simulation.serial (exec (Simulation.loop io) m)
  = (Simulation.serial m
     ++ dump_text (Simulation.b (exec (Simulation.loop io) m)))%string
  /\ String.length
       (dump_text (Simulation.b (exec (Simulation.loop io) m))) = 123%nat.
Proof.
  split.
  - destruct (Simulation_loop_arrays io m) as (-> & _).
    rewrite Simulation_loop_sensed.
    destruct (Simulation_control_frame (Simulation.sensed io m))
      as (_ & _ & -> & _).
    unfold Simulation.sensed. rewrite exec_bind.
    rewrite Simulation_dump_serial, Simulation_edges_serial. reflexivity.
  - apply dump_text_length.
Qed.

(** ** The tie-break with gate B left open *)

(** C8 fails on the code. The tie-break branch opens gate A and does not
    touch gate B, and [ST_IDLE] can be reached with gate B still commanded
    open: a back entry opens gate B, a veto on the gate-B safety sensor
    drops the close request (the guard of [operateGate]), and the state
    recovers to [ST_IDLE].  From there the cycle with front and back
    occupied and the middle zone free enters [ST_FRONT_ENTER] with the
    request outputs of both gates [HIGH]: gate B does not stay closed.
    Both machines are reachable from [setup]. *)
Theorem tie_break_with_gate_B_open :
  Sketch.reachable Sketch_idle_B_open
  /\ Sketch.currentState Sketch_idle_B_open = ST_IDLE
  /\ Sketch.requestB Sketch_idle_B_open = Some HIGH
  /\ Sketch.sample (Sketch.lines snap_front_back) = snap_front_back
  /\ Sketch.currentState
       (exec (Sketch.loop (Sketch.lines snap_front_back)) Sketch_idle_B_open)
     = ST_FRONT_ENTER
  /\ Sketch.requestA
       (exec (Sketch.loop (Sketch.lines snap_front_back)) Sketch_idle_B_open)
     = Some HIGH
  /\ Sketch.requestB
       (exec (Sketch.loop (Sketch.lines snap_front_back)) Sketch_idle_B_open)
     = Some HIGH
  /\ Simulation.reachable Simulation_idle_B_open
  /\ Simulation.currentState Simulation_idle_B_open = ST_IDLE
  /\ Simulation.requestB Simulation_idle_B_open = Some HIGH
  /\ Simulation.sample
       (Simulation.sensed sim_front_falls_back_held Simulation_idle_B_open)
     = mkSnapshot true false true false false true true
  /\ Simulation.currentState
       (exec (Simulation.loop sim_front_falls_back_held)
             Simulation_idle_B_open) = ST_FRONT_ENTER
  /\ Simulation.requestA
       (exec (Simulation.loop sim_front_falls_back_held)
             Simulation_idle_B_open) = Some HIGH
  /\ Simulation.requestB
       (exec (Simulation.loop sim_front_falls_back_held)
             Simulation_idle_B_open) = Some HIGH.
Proof.
  split; [apply Sketch_run_reachable, Sketch.reach_setup|].
  do 6 (split; [vm_compute; reflexivity|]).
  split; [apply Simulation_run_reachable, Simulation.reach_setup|].
  repeat split; vm_compute; reflexivity.
Qed.

(** ** The colour of each state *)















